(** * dora-drives: the obstacle location operator

    A shallow embedding of [operators/obstacle_location_op.py]: the operator
    object, its four event handlers and the numpy / scikit-learn calls they
    make, followed by the properties of the operator.

    The handlers are functions from the operator object and an event to an
    [outcome]: the status returned or the exception raised, the object as
    the handler left it, and the outputs sent.  The two helpers imported
    from [dora_utils] are parameters of the handlers.

    Numbers.  Finite floating-point values are modelled by the rationals they
    denote ([Q]); comparisons are then exact, arithmetic is exact (rounding is
    not modelled) and NaN / infinities are outside the model.  32-bit integers
    are [Z].  A transport buffer is modelled by its typed views, the byte
    encoding is not. *)

From Stdlib Require Import String List ZArith QArith Lia Bool Arith.
From Stdlib Require Import Permutation Sorted Lqa.
Import ListNotations.
Local Open Scope string_scope.
Local Open Scope list_scope.
Local Open Scope nat_scope.

(* ================================================================== *)
(** ** Python values and exceptions *)

Inductive exn : Type :=
| TypeError
| IndexError
| ValueError
| AttributeError.

Inductive result (A : Type) : Type :=
| Ok (a : A)
| Err (e : exn).
Arguments Ok {A} a.
Arguments Err {A} e.

Definition bind {A B : Type} (r : result A) (k : A -> result B) : result B :=
  match r with
  | Ok a => k a
  | Err e => Err e
  end.

Notation "x <- r ;; k" := (bind r (fun x => k))
  (at level 61, r at next level, right associativity).

Abbreviation vector := (list Q) (only parsing).
Abbreviation matrix := (list (list Q)) (only parsing).

(** The ndarray values that occur in the operator.  [Arr2 m] has one inner
    list per row.  [Empty3 m] is an array of shape (0, m, c): it has no
    element, and is what indexing an (m, c) array with the Python scalar
    [False] returns. *)
Inductive ndarray : Type :=
| Arr1 (v : vector)
| Arr2 (m : matrix)
| Empty3 (m : nat).

(** A field of the operator holds either the empty Python list [[]] that
    [__init__] stores, or an array. *)
Inductive held (A : Type) : Type :=
| PyList
| NdArray (a : A).
Arguments PyList {A}.
Arguments NdArray {A} a.

Definition len_ndarray (a : ndarray) : nat :=
  match a with
  | Arr1 v => length v
  | Arr2 m => length m
  | Empty3 _ => 0
  end.

Definition len {A : Type} (size : A -> nat) (h : held A) : nat :=
  match h with
  | PyList => 0
  | NdArray a => size a
  end.

(** [len] of a held 1-D array, or of a held 2-D array given by its rows. *)
Definition len_rows {A : Type} (h : held (list A)) : nat := len (@length A) h.

(* ================================================================== *)
(** ** numpy *)

Module np.

Definition Qltb (x y : Q) : bool := negb (Qle_bool y x).

Fixpoint chunks {A : Type} (c n : nat) (l : list A) : list (list A) :=
  match n with
  | O => []
  | S n' => firstn c l :: chunks c n' (skipn c l)
  end.

(** [a.reshape((-1, c))] on a flat array: a shape error unless the element
    count is a multiple of [c]. *)
Definition reshape {A : Type} (c : nat) (l : list A) : result (list (list A)) :=
  if (length l mod c =? 0)%nat
  then Ok (chunks c (length l / c) l)
  else Err ValueError.

(** [a.reshape((-1, r, c))]. *)
Definition reshape3 {A : Type} (r c : nat) (l : list A)
  : result (list (list (list A))) :=
  planes <- reshape (r * c) l ;;
  Ok (map (chunks c r) planes).

Definition ncols {A : Type} (m : list (list A)) : nat :=
  match m with
  | [] => 0
  | r :: _ => length r
  end.

(** [m[:, k]] on a 2-D array. *)
Definition col (k : nat) (m : matrix) : result vector :=
  if forallb (fun r => (k <? length r)%nat) m
  then Ok (map (fun r => nth k r 0%Q) m)
  else Err IndexError.

Fixpoint where_from (i : nat) (mask : list bool) : list nat :=
  match mask with
  | [] => []
  | b :: mask' =>
      if b then i :: where_from (S i) mask' else where_from (S i) mask'
  end.

(** [np.where(mask)] for a 1-D mask: the indices of the true entries (numpy
    wraps them in a 1-tuple). *)
Definition where_ (mask : list bool) : list nat := where_from 0 mask.

(** [a[ix]] for an index array [ix], along the first axis. *)
Fixpoint take {A : Type} (a : list A) (ix : list nat) : result (list A) :=
  match ix with
  | [] => Ok []
  | i :: ix' =>
      match nth_error a i with
      | Some r => rest <- take a ix' ;; Ok (r :: rest)
      | None => Err IndexError
      end
  end.

(** What the operator indexes an array with: the tuple that [np.where]
    returned, or the Python scalar [False]. *)
Inductive index : Type :=
| Tuple1 (ix : list nat)
| PyFalse.

(** [t == False] for a tuple [t]: a tuple is never equal to a bool, so the
    comparison is the scalar [False] whatever the tuple holds. *)
Definition eq_False (t : list nat) : index := PyFalse.

(** [a[i]] on a 2-D array.  A scalar [False] adds a leading axis of length 0. *)
Definition getitem (a : matrix) (i : index) : result ndarray :=
  match i with
  | Tuple1 ix => rows <- take a ix ;; Ok (Arr2 rows)
  | PyFalse => Ok (Empty3 (length a))
  end.

Definition dotp (u v : vector) : Q :=
  fold_right (fun p acc => (fst p * snd p + acc)%Q) 0%Q (combine u v).

(** [m.T] on a 2-D array. *)
Definition T (m : matrix) : matrix :=
  map (fun j => map (fun r => nth j r 0%Q) m) (seq 0 (ncols m)).

(** [np.dot(a, b)] on 2-D arrays: a shape error unless the rows of [a] are
    as long as [b] is high. *)
Definition dot (a b : matrix) : result matrix :=
  if forallb (fun r => (length r =? length b)%nat) a
  then Ok (map (fun r => map (dotp r) (T b)) a)
  else Err ValueError.

(** [np.hstack((a, np.ones((a.shape[0], 1))))]. *)
Definition hstack_ones (a : matrix) : matrix := map (fun r => r ++ [1%Q]) a.

(** [a[:, :k]]. *)
Definition first_cols (k : nat) (a : matrix) : matrix := map (firstn k) a.

Definition ravel {A : Type} (a : list (list A)) : list A := concat a.

Fixpoint insert_key (p : Q * nat) (l : list (Q * nat)) : list (Q * nat) :=
  match l with
  | [] => [p]
  | q :: l' =>
      if Qle_bool (fst p) (fst q) then p :: l else q :: insert_key p l'
  end.

Definition sort_keys (l : list (Q * nat)) : list (Q * nat) :=
  fold_right insert_key [] l.

(** [v.argsort()]: the indices of [v] in ascending order of value.  numpy
    does not promise an order among equal values; this model keeps them in
    index order. *)
Definition argsort (v : vector) : list nat :=
  map snd (sort_keys (combine v (seq 0 (length v)))).

(** [np.sort(v)]: the values of [v] in ascending order. *)
Fixpoint insert (x : Q) (l : vector) : vector :=
  match l with
  | [] => [x]
  | y :: l' => if Qle_bool x y then x :: l else y :: insert x l'
  end.

Definition sort (v : vector) : vector := fold_right insert [] v.

End np.

(* ================================================================== *)
(** ** scikit-learn: [KNeighborsRegressor] with uniform weights *)

Module sklearn.

Record KNeighborsRegressor : Type := {
  n_neighbors : nat;
  fit_X : matrix;
  fit_y : ndarray
}.

(** [knnr.fit(X, y)]: the training data must be a 2-D array with at least
    one sample and one feature, and the targets a 1-D or 2-D array with as
    many samples; anything else is a [ValueError]. *)
Definition fit (k : nat) (X : ndarray) (y : held ndarray)
  : result KNeighborsRegressor :=
  match X with
  | Arr2 Xr =>
      if (length Xr =? 0)%nat || (np.ncols Xr =? 0)%nat then Err ValueError
      else
        match y with
        | NdArray (Arr2 yr) =>
            if (length yr =? length Xr)%nat
            then Ok {| n_neighbors := k; fit_X := Xr; fit_y := Arr2 yr |}
            else Err ValueError
        | NdArray (Arr1 yv) =>
            if (length yv =? length Xr)%nat
            then Ok {| n_neighbors := k; fit_X := Xr; fit_y := Arr1 yv |}
            else Err ValueError
        | _ => Err ValueError
        end
  | _ => Err ValueError
  end.

Definition sqdist (p q : vector) : Q :=
  fold_right (fun c acc => ((fst c - snd c) * (fst c - snd c) + acc)%Q) 0%Q
    (combine p q).

(** The indices of the [n_neighbors] training samples nearest to [q]. *)
Definition kneighbors (r : KNeighborsRegressor) (q : vector) : list nat :=
  firstn (n_neighbors r) (np.argsort (map (sqdist q) (fit_X r))).

Definition Qsum (l : list Q) : Q := fold_right Qplus 0%Q l.

Definition mean (l : list Q) : Q := (Qsum l / inject_Z (Z.of_nat (length l)))%Q.

(** The mean, column by column, of [rows], an array with [c] columns. *)
Definition column_means (c : nat) (rows : matrix) : vector :=
  map (fun j => mean (map (fun t => nth j t 0%Q) rows)) (seq 0 c).

(** [knnr.predict(Q)] for a 2-D query with two features per row: a
    [ValueError] when the feature count differs from the fitted one or when
    fewer than [n_neighbors] samples were fitted; otherwise, per query row,
    the mean of the targets of its nearest samples. *)
Definition predict (r : KNeighborsRegressor) (queries : list (list Z))
  : result ndarray :=
  if negb (np.ncols (fit_X r) =? 2)%nat then Err ValueError
  else if (length (fit_X r) <? n_neighbors r)%nat then Err ValueError
  else
    let qs := map (map inject_Z) queries in
    match fit_y r with
    | Arr2 yr =>
        Ok (Arr2 (map (fun q =>
                         column_means (np.ncols yr)
                           (map (fun i => nth i yr []) (kneighbors r q)))
                      qs))
    | Arr1 yv =>
        Ok (Arr1 (map (fun q =>
                         mean (map (fun i => nth i yv 0%Q) (kneighbors r q)))
                      qs))
    | Empty3 _ => Err ValueError
    end.

End sklearn.

(* ================================================================== *)
(** ** The dataflow interface *)

Inductive DoraStatus : Type :=
| CONTINUE
| STOP.

(** A transport buffer, by its two typed views ([.view(np.float32)] and
    [.view(np.int32)]). *)
Record buffer : Type := {
  view_float32 : list Q;
  view_int32 : list Z
}.

Record dora_event : Type := {
  type : string;
  id : string;
  value : buffer;
  metadata : string
}.

(** One call of [send_output(output_id, data, metadata)]; [data] lists the
    32-bit floats of the flat buffer. *)
Record output : Type := {
  output_id : string;
  data : list Q;
  output_metadata : string
}.

(* ================================================================== *)
(** ** The operator *)

Definition VELODYNE_MATRIX : matrix :=
  [[0; 0; 1]; [1; 0; 0]; [0; -(1); 0]]%Q.

(** The binary64 value of the literal [0.1]. *)
Definition FORWARD_DEPTH : Q := 3602879701896397 # 36028797018963968.

Definition GROUND_HEIGHT : Q := 1.

Definition depth_of (p : vector) : Q := nth 2 p 0%Q.

Definition height_of (p : vector) : Q := nth 1 p 0%Q.

(** [p[2] > 0.1]. *)
Definition forward (p : vector) : bool := np.Qltb FORWARD_DEPTH (depth_of p).

(** [p[1] < 1.0]. *)
Definition above_ground (p : vector) : bool :=
  np.Qltb (height_of p) GROUND_HEIGHT.

(** [np.linalg.inv] on a 3 x 3 matrix, in exact arithmetic (adjugate over
    determinant); a singular matrix raises [LinAlgError], rendered here as
    [ValueError]. *)
Definition inv3 (m : matrix) : result matrix :=
  match m with
  | [[a; b; c]; [d; e; f]; [g; h; i]] =>
      let det := (a * (e * i - f * h) - b * (d * i - f * g)
                  + c * (d * h - e * g))%Q in
      if Qeq_bool det 0 then Err ValueError
      else Ok [[(e * i - f * h) / det; (c * h - b * i) / det;
                (b * f - c * e) / det];
               [(f * g - d * i) / det; (a * i - c * g) / det;
                (c * d - a * f) / det];
               [(d * h - e * g) / det; (b * g - a * h) / det;
                (a * e - b * d) / det]]%Q
  | _ => Err ValueError
  end.

Definition INV_VELODYNE_MATRIX : result matrix := inv3 VELODYNE_MATRIX.

Definition last2 {A : Type} (l : list A) : list A := skipn (length l - 2) l.

(** [get_predictions]: rows of [location ++ obstacle[-2:]] over
    [zip(obstacles, obstacle_with_locations)]. *)
Definition get_predictions (obstacles : list (list Z))
    (obstacle_with_locations : matrix) : matrix :=
  map (fun ol => snd ol ++ map inject_Z (last2 (fst ol)))
      (combine obstacles obstacle_with_locations).

Record Operator : Type := {
  point_cloud : held matrix;
  camera_point_cloud : held ndarray;
  ground_point_cloud : held ndarray;
  camera_ground_point_cloud : held ndarray;
  last_point_cloud : held ndarray;
  last_camera_point_cloud : held ndarray;
  obstacles : held ndarray;
  obstacles_bbox : held (list (list Z));
  position : held vector;
  lanes : held ndarray;
  extrinsic_matrix : option matrix
}.

(** [Operator.__init__]; the attribute [extrinsic_matrix] does not exist
    until a pose has been handled. *)
Definition init : Operator := {|
  point_cloud := PyList;
  camera_point_cloud := PyList;
  ground_point_cloud := PyList;
  camera_ground_point_cloud := PyList;
  last_point_cloud := PyList;
  last_camera_point_cloud := PyList;
  obstacles := PyList;
  obstacles_bbox := PyList;
  position := PyList;
  lanes := PyList;
  extrinsic_matrix := None
|}.

Definition set_ground_point_cloud (self : Operator) (a : ndarray) : Operator :=
  {| point_cloud := point_cloud self;
     camera_point_cloud := camera_point_cloud self;
     ground_point_cloud := NdArray a;
     camera_ground_point_cloud := camera_ground_point_cloud self;
     last_point_cloud := last_point_cloud self;
     last_camera_point_cloud := last_camera_point_cloud self;
     obstacles := obstacles self;
     obstacles_bbox := obstacles_bbox self;
     position := position self;
     lanes := lanes self;
     extrinsic_matrix := extrinsic_matrix self |}.

Definition set_camera_ground_point_cloud (self : Operator) (a : ndarray)
  : Operator :=
  {| point_cloud := point_cloud self;
     camera_point_cloud := camera_point_cloud self;
     ground_point_cloud := ground_point_cloud self;
     camera_ground_point_cloud := NdArray a;
     last_point_cloud := last_point_cloud self;
     last_camera_point_cloud := last_camera_point_cloud self;
     obstacles := obstacles self;
     obstacles_bbox := obstacles_bbox self;
     position := position self;
     lanes := lanes self;
     extrinsic_matrix := extrinsic_matrix self |}.

Definition set_camera_point_cloud (self : Operator) (a : ndarray) : Operator :=
  {| point_cloud := point_cloud self;
     camera_point_cloud := NdArray a;
     ground_point_cloud := ground_point_cloud self;
     camera_ground_point_cloud := camera_ground_point_cloud self;
     last_point_cloud := last_point_cloud self;
     last_camera_point_cloud := last_camera_point_cloud self;
     obstacles := obstacles self;
     obstacles_bbox := obstacles_bbox self;
     position := position self;
     lanes := lanes self;
     extrinsic_matrix := extrinsic_matrix self |}.

Definition set_point_cloud (self : Operator) (m : matrix) : Operator :=
  {| point_cloud := NdArray m;
     camera_point_cloud := camera_point_cloud self;
     ground_point_cloud := ground_point_cloud self;
     camera_ground_point_cloud := camera_ground_point_cloud self;
     last_point_cloud := last_point_cloud self;
     last_camera_point_cloud := last_camera_point_cloud self;
     obstacles := obstacles self;
     obstacles_bbox := obstacles_bbox self;
     position := position self;
     lanes := lanes self;
     extrinsic_matrix := extrinsic_matrix self |}.

Definition set_position (self : Operator) (v : vector) : Operator :=
  {| point_cloud := point_cloud self;
     camera_point_cloud := camera_point_cloud self;
     ground_point_cloud := ground_point_cloud self;
     camera_ground_point_cloud := camera_ground_point_cloud self;
     last_point_cloud := last_point_cloud self;
     last_camera_point_cloud := last_camera_point_cloud self;
     obstacles := obstacles self;
     obstacles_bbox := obstacles_bbox self;
     position := NdArray v;
     lanes := lanes self;
     extrinsic_matrix := extrinsic_matrix self |}.

Definition set_extrinsic_matrix (self : Operator) (m : matrix) : Operator :=
  {| point_cloud := point_cloud self;
     camera_point_cloud := camera_point_cloud self;
     ground_point_cloud := ground_point_cloud self;
     camera_ground_point_cloud := camera_ground_point_cloud self;
     last_point_cloud := last_point_cloud self;
     last_camera_point_cloud := last_camera_point_cloud self;
     obstacles := obstacles self;
     obstacles_bbox := obstacles_bbox self;
     position := position self;
     lanes := lanes self;
     extrinsic_matrix := Some m |}.

Definition set_obstacles_bbox (self : Operator) (b : list (list Z))
  : Operator :=
  {| point_cloud := point_cloud self;
     camera_point_cloud := camera_point_cloud self;
     ground_point_cloud := ground_point_cloud self;
     camera_ground_point_cloud := camera_ground_point_cloud self;
     last_point_cloud := last_point_cloud self;
     last_camera_point_cloud := last_camera_point_cloud self;
     obstacles := obstacles self;
     obstacles_bbox := NdArray b;
     position := position self;
     lanes := lanes self;
     extrinsic_matrix := extrinsic_matrix self |}.

(** How a handler ends: it returns a status, or an exception leaves it.
    Either way the operator object is left in the state [self]; [sent]
    lists the calls of [send_output], which only a returning handler makes. *)
Inductive outcome : Type :=
| Return (status : DoraStatus) (self : Operator) (sent : list output)
| Raise (e : exn) (self : Operator).

Definition state_of (o : outcome) : Operator :=
  match o with
  | Return _ self _ => self
  | Raise _ self => self
  end.

Definition sent_of (o : outcome) : list output :=
  match o with
  | Return _ _ sent => sent
  | Raise _ _ => []
  end.

Notation "'try' x <- r 'in' self ;; k" :=
  (match r with
   | Ok x => k
   | Err e => Raise e self
   end)
  (at level 61, x name, r at next level, self at next level,
   right associativity).

(** [a[:, k]] on a held camera-view array. *)
Definition column (k : nat) (a : held ndarray) : result vector :=
  match a with
  | PyList => Err TypeError
  | NdArray (Arr1 _) => Err IndexError
  | NdArray (Arr2 m) => np.col k m
  | NdArray (Empty3 m) => if (k <? m)%nat then Ok [] else Err IndexError
  end.

(** [a[:, :2]] on a held camera-view array. *)
Definition first_two_columns (a : held ndarray) : result ndarray :=
  match a with
  | PyList => Err TypeError
  | NdArray (Arr1 _) => Err IndexError
  | NdArray (Arr2 m) => Ok (Arr2 (np.first_cols 2 m))
  | NdArray (Empty3 m) => Ok (Empty3 (Nat.min m 2))
  end.

Fixpoint mapM {A B : Type} (f : A -> result B) (l : list A) : result (list B) :=
  match l with
  | [] => Ok []
  | a :: l' => b <- f a ;; bs <- mapM f l' ;; Ok (b :: bs)
  end.

(** The mask of a bounding box over the pixel coordinates [u], [v]. *)
Definition inside (min_x max_x min_y max_y : Z) (u v : vector) : list bool :=
  map (fun uv =>
         np.Qltb (inject_Z min_x) (fst uv)
         && np.Qltb (fst uv) (inject_Z max_x)
         && np.Qltb (inject_Z min_y) (snd uv)
         && np.Qltb (snd uv) (inject_Z max_y))
      (combine u v).

(** [z_points] of one bounding box: the held points whose pixel lies
    strictly inside it. *)
Definition points_in_box (cloud : matrix) (camera : held ndarray)
    (obstacle_bb : list Z) : result matrix :=
  match obstacle_bb with
  | [min_x; max_x; min_y; max_y; confidence; label] =>
      u <- column 0 camera ;;
      v <- column 1 camera ;;
      np.take cloud (np.where_ (inside min_x max_x min_y max_y u v))
  | _ => Err ValueError
  end.

(** [z_points[z_points[:, 2].argsort()[int(len(z_points) / 4)]]]. *)
Definition closest_point (z_points : matrix) : result vector :=
  depth <- np.col 2 z_points ;;
  match nth_error (np.argsort depth) (length z_points / 4) with
  | Some i =>
      match nth_error z_points i with
      | Some p => Ok p
      | None => Err IndexError
      end
  | None => Err IndexError
  end.

(** The loop over the bounding boxes, building [obstacles_with_location]. *)
Fixpoint locate (cloud : matrix) (camera : held ndarray)
    (boxes : list (list Z)) : result matrix :=
  match boxes with
  | [] => Ok []
  | obstacle_bb :: rest =>
      z_points <- points_in_box cloud camera obstacle_bb ;;
      if (0 <? length z_points)%nat
      then closest <- closest_point z_points ;;
           locations <- locate cloud camera rest ;;
           Ok (closest :: locations)
      else locate cloud camera rest
  end.

(** [np.dot(hstack((a, ones)), self.extrinsic_matrix.T)[:, :3]]. *)
Definition to_world (extrinsic : option matrix) (a : matrix) : result matrix :=
  let homogeneous := np.hstack_ones a in
  match extrinsic with
  | None => Err AttributeError
  | Some e =>
      w <- np.dot homogeneous (np.T e) ;;
      Ok (np.first_cols 3 w)
  end.

(** The body of the loop over the lanes. *)
Definition lane_to_world (knnr : sklearn.KNeighborsRegressor)
    (extrinsic : option matrix) (lane : list (list Z)) : result matrix :=
  lane_location <- sklearn.predict knnr lane ;;
  match lane_location with
  | Arr2 m => to_world extrinsic m
  | _ => Err ValueError
  end.

Section Handlers.

(** What [obstacle_location_op.py] imports from [dora_utils], which is not
    among the sources at hand:
    [camera_view_T a] stands for
    [local_points_to_camera_view(a, INTRINSIC_MATRIX).T] and
    [extrinsic p] for [get_extrinsic_matrix(get_projection_matrix(p))]. *)
Variable camera_view_T : ndarray -> result ndarray.
Variable extrinsic : vector -> result matrix.

Definition on_lidar_pc (self : Operator) (dora_input : dora_event) : outcome :=
  try point_cloud <- np.reshape 3 (view_float32 (value dora_input)) in self ;;
  try point_cloud <- np.dot point_cloud VELODYNE_MATRIX in self ;;
  try depth <- np.col 2 point_cloud in self ;;
  try point_cloud <-
    np.take point_cloud
      (np.where_ (map (fun z => np.Qltb FORWARD_DEPTH z) depth))
    in self ;;
  try height <- np.col 1 point_cloud in self ;;
  let above_ground_point_index :=
    np.where_ (map (fun y => np.Qltb y GROUND_HEIGHT) height) in
  try point_cloud <- np.take point_cloud above_ground_point_index in self ;;
  try ground <-
    np.getitem point_cloud (np.eq_False above_ground_point_index) in self ;;
  let self := set_ground_point_cloud self ground in
  try camera_point_cloud <- camera_view_T (Arr2 point_cloud) in self ;;
  try camera_ground <- camera_view_T ground in self ;;
  let self := set_camera_ground_point_cloud self camera_ground in
  let self := set_camera_point_cloud self camera_point_cloud in
  let self := set_point_cloud self point_cloud in
  Return CONTINUE self [].

Definition on_position (self : Operator) (dora_input : dora_event) : outcome :=
  let position := view_float32 (value dora_input) in
  let self := set_position self position in
  try m <- extrinsic position in self ;;
  Return CONTINUE (set_extrinsic_matrix self m) [].

Definition on_lanes (self : Operator) (dora_input : dora_event) : outcome :=
  try lanes <- np.reshape3 60 2 (view_int32 (value dora_input)) in self ;;
  try X <- first_two_columns (camera_ground_point_cloud self) in self ;;
  try knnr <- sklearn.fit 4 X (ground_point_cloud self) in self ;;
  try processed_lanes <-
    mapM (lane_to_world knnr (extrinsic_matrix self)) lanes in self ;;
  Return CONTINUE self
    [ {| output_id := "global_lanes";
         data := np.ravel (np.ravel processed_lanes);
         output_metadata := metadata dora_input |} ].

Definition on_obstacles_bbox (self : Operator) (dora_input : dora_event)
  : outcome :=
  if (len_rows (position self) =? 0) || (len_rows (point_cloud self) =? 0)
  then Return CONTINUE self []
  else
    try boxes <- np.reshape 6 (view_int32 (value dora_input)) in self ;;
    let self := set_obstacles_bbox self boxes in
    match point_cloud self with
    | PyList => Raise TypeError self  (* excluded by the guard above *)
    | NdArray cloud =>
        try obstacles_with_location <-
          locate cloud (camera_point_cloud self) boxes in self ;;
        if (0 <? length obstacles_with_location)%nat
        then
          try obstacles_with_location <-
            to_world (extrinsic_matrix self) obstacles_with_location in self ;;
          let predictions := get_predictions boxes obstacles_with_location in
          Return CONTINUE self
            [ {| output_id := "obstacles";
                 data := np.ravel predictions;
                 output_metadata := metadata dora_input |} ]
        else
          Return CONTINUE self
            [ {| output_id := "obstacles";
                 data := [];
                 output_metadata := metadata dora_input |} ]
    end.

Definition on_input (self : Operator) (dora_input : dora_event) : outcome :=
  if String.eqb "lidar_pc" (id dora_input) then on_lidar_pc self dora_input
  else if String.eqb "position" (id dora_input)
       then on_position self dora_input
  else if String.eqb "lanes" (id dora_input) then on_lanes self dora_input
  else if String.eqb "obstacles_bbox" (id dora_input)
       then on_obstacles_bbox self dora_input
  else Return CONTINUE self [].

Definition on_event (self : Operator) (dora_event : dora_event) : outcome :=
  if String.eqb (type dora_event) "INPUT" then on_input self dora_event
  else Return CONTINUE self [].

(** The events are delivered one after the other to the same object.  The
    run below keeps delivering after an exception, with the object as the
    failed handler left it; [sent] collects every output in order. *)
Fixpoint run (self : Operator) (events : list dora_event)
  : Operator * list output :=
  match events with
  | [] => (self, [])
  | ev :: rest =>
      let o := on_event self ev in
      let (final, sent) := run (state_of o) rest in
      (final, sent_of o ++ sent)
  end.

(** The states the operator object can be in. *)
Inductive reachable : Operator -> Prop :=
| reachable_init : reachable init
| reachable_step (self : Operator) (ev : dora_event) :
    reachable self -> reachable (state_of (on_event self ev)).

End Handlers.

(* ================================================================== *)
(** ** Stand-ins for [dora_utils], to run the operator on examples

    The properties below hold for every [camera_view_T] and [extrinsic];
    the two definitions here only serve to evaluate the handlers on
    concrete events. *)

(** Modelled from the spec: [INTRINSIC_MATRIX], the "standard pinhole
    projection matrix from image dimensions and field of view" (1920 x 1080,
    90 degrees: focal length 960, principal point at the image centre). *)
Definition PINHOLE_1920_1080_90 : matrix :=
  [[960; 0; 960]; [0; 960; 540]; [0; 0; 1]]%Q.

(** Modelled from the spec: [local_points_to_camera_view(a, K).T], which
    "perspective-divides camera-frame 3D points into image-plane 2D
    coordinates while retaining the original depth value per point": one row
    (u, v, depth) per point.  An array without elements has no pixel. *)
Definition pinhole_view_T (a : ndarray) : result ndarray :=
  match a with
  | Arr2 (p :: m) =>
      Ok (Arr2 (map (fun r =>
                       let h := map (np.dotp r) PINHOLE_1920_1080_90 in
                       let w := nth 2 h 0%Q in
                       [nth 0 h 0 / w; nth 1 h 0 / w; w]%Q)
                    (p :: m)))
  | _ => Ok (Arr1 [])
  end.

(** Modelled from the spec: [get_extrinsic_matrix(get_projection_matrix(p))],
    the "4x4 homogeneous transform from a Pose's location and orientation",
    for poses without rotation only: the translation to the pose's location.
    The orientation is not looked at. *)
Definition translation_extrinsic (p : vector) : result matrix :=
  match p with
  | [x; y; z; pitch; yaw; roll] =>
      Ok [[1; 0; 0; x]; [0; 1; 0; y]; [0; 0; 1; z]; [0; 0; 0; 1]]%Q
  | _ => Err IndexError
  end.

Definition floats (l : list Q) : buffer :=
  {| view_float32 := l; view_int32 := [] |}.

Definition ints (l : list Z) : buffer :=
  {| view_float32 := []; view_int32 := l |}.

Definition input (name : string) (b : buffer) : dora_event :=
  {| type := "INPUT"; id := name; value := b; metadata := "" |}.

(** An operator that has handled a point cloud of one point, ten metres
    ahead, and a pose at (1, 2, 3). *)
Definition one_point_ahead : Operator :=
  fst (run pinhole_view_T translation_extrinsic init
         [ input "lidar_pc" (floats [10; 0; 0]%Q);
           input "position" (floats [1; 2; 3; 0; 0; 0]%Q) ]).

(** An operator that has handled a pose and a point cloud whose only point
    is behind the sensor. *)
Definition nothing_ahead : Operator :=
  fst (run pinhole_view_T translation_extrinsic init
         [ input "position" (floats [0; 0; 0; 0; 0; 0]%Q);
           input "lidar_pc" (floats [-(5); 0; 0]%Q) ]).




(* ================================================================== *)
(** ** Notions the properties are stated with *)

Definition by_depth (p q : vector) : Prop := (depth_of p <= depth_of q)%Q.

(** A bounding box is localizable when at least one held point projects
    strictly inside it. *)
Definition localizable (self : Operator) (obstacle_bb : list Z) : bool :=
  match point_cloud self with
  | NdArray cloud =>
      match points_in_box cloud (camera_point_cloud self) obstacle_bb with
      | Ok (_ :: _) => true
      | _ => false
      end
  | PyList => false
  end.

(** The held camera view [camera] is a pixel index of the held cloud
    [cloud]: one row (u, v, depth) per point (x, y, z). *)
Definition indexed (self : Operator) (cloud camera : matrix) : Prop :=
  point_cloud self = NdArray cloud /\
  camera_point_cloud self = NdArray (Arr2 camera) /\
  length camera = length cloud /\
  Forall (fun r => length r = 3) camera /\
  Forall (fun p => length p = 3) cloud.

(** The ground partition is the list of [__init__] or an array without
    rows. *)
Definition no_ground (self : Operator) : Prop :=
  ground_point_cloud self = PyList
  \/ exists m, ground_point_cloud self = NdArray (Empty3 m).

(** The selected points in the order [argsort] puts them. *)
Definition ascending (z_points : matrix) : matrix :=
  map (fun i => nth i z_points []) (np.argsort (map depth_of z_points)).

(** The fields that localization reads. *)
Definition fusion_state (self : Operator) :=
  (point_cloud self, camera_point_cloud self, ground_point_cloud self,
   camera_ground_point_cloud self, position self, extrinsic_matrix self).

Definition untouched_fields (self : Operator) :=
  (last_point_cloud self, last_camera_point_cloud self, obstacles self,
   lanes self).

Definition square (n : nat) (m : matrix) : Prop :=
  length m = n /\ Forall (fun r => length r = n) m.

(* ================================================================== *)
(** ** The other axis matrix of the operator *)

Definition UNREAL_MATRIX : matrix :=
  [[0; 0; 1]; [-(1); 0; 0]; [0; -(1); 0]]%Q.

Definition INV_UNREAL_MATRIX : result matrix := inv3 UNREAL_MATRIX.

(** A LiDAR point (x forward, y right, z up) read in the camera axes
    (x right, y down, z forward), as the comment above the conversion has
    it. *)
Definition camera_axes (p : vector) : vector :=
  [nth 1 p 0; - nth 2 p 0; nth 0 p 0]%Q.

(** A LiDAR point further than 0.1 ahead and less than 1.0 below the
    sensor. *)
Definition in_view (p : vector) : bool :=
  np.Qltb FORWARD_DEPTH (nth 0 p 0%Q) && np.Qltb (-(1)) (nth 2 p 0%Q).

(** A camera-frame point that the point-cloud handler keeps. *)
Definition kept_point (p : vector) : Prop :=
  length p = 3
  /\ (FORWARD_DEPTH < depth_of p)%Q
  /\ (height_of p < GROUND_HEIGHT)%Q.

(** The pixel of row [r] of the camera view lies strictly inside the box. *)
Definition pixel_inside (obstacle_bb : list Z) (r : vector) : Prop :=
  (inject_Z (nth 0 obstacle_bb 0%Z) < nth 0 r 0)%Q
  /\ (nth 0 r 0 < inject_Z (nth 1 obstacle_bb 0%Z))%Q
  /\ (inject_Z (nth 2 obstacle_bb 0%Z) < nth 1 r 0)%Q
  /\ (nth 1 r 0 < inject_Z (nth 3 obstacle_bb 0%Z))%Q.

(** The ids the operator dispatches on. *)
Definition known_id (name : string) : bool :=
  String.eqb "lidar_pc" name || String.eqb "position" name
  || String.eqb "lanes" name || String.eqb "obstacles_bbox" name.

(* ================================================================== *)
(** ** [carla/carla_source_node.py]: the pure helpers and the LiDAR
    callback *)

Module carla_source_node.

(** [radians_to_steer]. *)
Definition radians_to_steer (rad steer_gain : Q) : Q :=
  let steer := (steer_gain * rad)%Q in
  if np.Qltb 0 steer
  then (if np.Qltb 1 steer then 1%Q else steer)
  else (if np.Qltb steer (-(1)) then (-(1))%Q else steer).

(** [serialize_context]; a dict is the list of its items, in insertion
    order. *)
Fixpoint serialize_context (context : list (string * string)) : string :=
  match context with
  | [] => ""
  | (key, value) :: rest =>
      (key ++ ":" ++ value ++ ";" ++ serialize_context rest)%string
  end.

(** [on_lidar_msg]: the new value of the global [lidar_pc], given the
    32-bit floats of [frame.raw_data]. *)
Definition on_lidar_msg (raw_data : list Q) : result (list Q) :=
  point_cloud <- np.reshape 4 raw_data ;;
  let point_cloud := np.first_cols 3 point_cloud in
  Ok (np.ravel point_cloud).

End carla_source_node.

(* ================================================================== *)
(** ** [nodes/obstacle_location_operator.py]: locating an obstacle from the
    depth frame *)

Module obstacle_location_node.

Section GetObstacleLocations.

(** What the node takes from pylot: the centre of an obstacle's bounding
    box, whether a pixel is within the box, the 3-D locations the depth
    frame gives for a list of pixels, and the distance of a location to the
    ego vehicle. *)
Variable obstacle : Type.
Variable location : Type.
Variable get_center_point : obstacle -> Z * Z.
Variable is_within : obstacle -> Z * Z -> bool.
Variable get_pixel_locations : list (Z * Z) -> list location.
Variable distance : location -> Q.

(** [range(-30, 30, 5)]. *)
Definition deltas : list Z :=
  map (fun k => (-30 + 5 * Z.of_nat k)%Z) (seq 0 12).

(** The two nested loops that build [sample_points]. *)
Definition sample_points (o : obstacle) : list (Z * Z) :=
  let center_point := get_center_point o in
  filter (is_within o)
    (flat_map (fun delta_x =>
                 map (fun delta_y =>
                        ((fst center_point + delta_x)%Z,
                         (snd center_point + delta_y)%Z))
                     deltas)
              deltas).

(** The loop that keeps the closest location; [min_distance] starts at
    infinity, which is [None]. *)
Fixpoint closest_from (min_distance : option Q)
    (closest_location : option location) (locations : list location)
  : option location :=
  match locations with
  | [] => closest_location
  | l :: rest =>
      let dist := distance l in
      if match min_distance with
         | None => true
         | Some m => np.Qltb dist m
         end
      then closest_from (Some dist) (Some l) rest
      else closest_from min_distance closest_location rest
  end.

(** [r] is the first of the nearest of [locations], or nothing when there
    is no location. *)
Definition first_nearest (locations : list location) (r : option location)
  : Prop :=
  match r with
  | None => locations = []
  | Some l =>
      exists before after,
        locations = before ++ l :: after
        /\ Forall (fun l' => (distance l < distance l')%Q) before
        /\ Forall (fun l' => (distance l <= distance l')%Q) after
  end.

(** [get_obstacle_locations]: every obstacle with the location its
    transform is set to ([None] when no sample point gave one). *)
Definition get_obstacle_locations (obstacles : list obstacle)
  : list (obstacle * option location) :=
  map (fun o =>
         let locations := get_pixel_locations (sample_points o) in
         (o, closest_from None None locations))
      obstacles.

End GetObstacleLocations.

Arguments sample_points {obstacle} get_center_point is_within o.
Arguments closest_from {location} distance min_distance closest_location
  locations.
Arguments first_nearest {location} distance locations r.
Arguments get_obstacle_locations {obstacle location} get_center_point
  is_within get_pixel_locations distance obstacles.

End obstacle_location_node.

(* ================================================================== *)
(** ** Facts about the numpy model *)

Lemma length_chunks {A : Type} (c n : nat) (l : list A) :
  length (np.chunks c n l) = n.
Proof.
  revert l; induction n as [|n IH]; intros l; simpl; [reflexivity|].
  now rewrite IH.
Qed.

Lemma chunks_width {A : Type} (c n : nat) (l : list A) :
  length l = (n * c)%nat -> Forall (fun r => length r = c) (np.chunks c n l).
Proof.
  revert l; induction n as [|n IH]; intros l Hl; simpl; constructor.
  - rewrite length_firstn. simpl in Hl. lia.
  - apply IH. rewrite length_skipn. simpl in Hl. lia.
Qed.

Lemma concat_chunks {A : Type} (c n : nat) (l : list A) :
  length l = (n * c)%nat -> concat (np.chunks c n l) = l.
Proof.
  revert l; induction n as [|n IH]; intros l Hl; simpl.
  - simpl in Hl. now destruct l.
  - rewrite IH.
    + apply firstn_skipn.
    + rewrite length_skipn. simpl in Hl. lia.
Qed.

Lemma reshape_Ok {A : Type} (c : nat) (l : list A) (rows : list (list A)) :
  c <> 0%nat -> np.reshape c l = Ok rows ->
  Forall (fun r => length r = c) rows /\ length l = (length rows * c)%nat
  /\ concat rows = l.
Proof.
  unfold np.reshape. intros Hc H.
  destruct (Nat.eqb_spec (length l mod c) 0) as [Hm|]; [|discriminate].
  injection H as <-.
  assert (Hl : length l = (length l / c * c)%nat).
  { pose proof (Nat.div_mod_eq (length l) c). lia. }
  rewrite length_chunks. repeat split.
  - now apply chunks_width.
  - exact Hl.
  - now apply concat_chunks.
Qed.

Lemma reshape3_Ok {A : Type} (r c : nat) (l : list A)
    (planes : list (list (list A))) :
  (r * c)%nat <> 0%nat -> np.reshape3 r c l = Ok planes ->
  Forall (fun p => length p = r /\ Forall (fun row => length row = c) p) planes
  /\ length l = (length planes * (r * c))%nat.
Proof.
  unfold np.reshape3. intros Hrc H.
  destruct (np.reshape (r * c) l) as [flat|] eqn:E; simpl in H; [|discriminate].
  injection H as <-.
  destruct (reshape_Ok _ _ _ Hrc E) as (Hw & Hl & _).
  rewrite length_map. split; [|exact Hl].
  apply Forall_map. revert Hw. apply Forall_impl. intros p Hp. split.
  - apply length_chunks.
  - apply chunks_width. lia.
Qed.

Lemma take_where_from {A : Type} (mask : list bool) :
  forall (pre a : list A),
    length mask <= length a ->
    np.take (pre ++ a) (np.where_from (length pre) mask)
    = Ok (map fst (filter snd (combine a mask))).
Proof.
  induction mask as [|b mask IH]; intros pre a Hlen.
  - simpl. now rewrite combine_nil.
  - destruct a as [|x a]; [simpl in Hlen; lia|].
    simpl in Hlen.
    assert (Hshift :
             np.take (pre ++ x :: a) (np.where_from (S (length pre)) mask)
             = Ok (map fst (filter snd (combine a mask)))).
    { specialize (IH (pre ++ [x]) a).
      rewrite <- app_assoc, length_app in IH. simpl in IH.
      rewrite Nat.add_1_r in IH. apply IH. lia. }
    destruct b; simpl.
    + rewrite nth_error_app2 by lia. rewrite Nat.sub_diag. simpl.
      now rewrite Hshift.
    + exact Hshift.
Qed.

(** Indexing with the indices of the true entries of a mask selects the
    rows under a true entry, in order, and never goes out of bounds. *)
Lemma take_where {A : Type} (a : list A) (mask : list bool) :
  length mask <= length a ->
  np.take a (np.where_ mask) = Ok (map fst (filter snd (combine a mask))).
Proof. intros H. exact (take_where_from mask [] a H). Qed.

Lemma select_map {A : Type} (f : A -> bool) (a : list A) :
  map fst (filter snd (combine a (map f a))) = filter f a.
Proof.
  induction a as [|x a IH]; simpl; [reflexivity|].
  destruct (f x); simpl; now rewrite IH.
Qed.

Lemma take_where_map {A : Type} (f : A -> bool) (a : list A) :
  np.take a (np.where_ (map f a)) = Ok (filter f a).
Proof.
  rewrite take_where by (rewrite length_map; lia).
  now rewrite select_map.
Qed.

Lemma col_Ok (k n : nat) (m : matrix) :
  Forall (fun r => length r = n) m -> k < n ->
  np.col k m = Ok (map (fun r => nth k r 0%Q) m).
Proof.
  intros H Hk. unfold np.col.
  replace (forallb (fun r => (k <? length r)%nat) m) with true; [reflexivity|].
  symmetry. apply forallb_forall. intros r Hr.
  rewrite Forall_forall in H. rewrite (H r Hr). now apply Nat.ltb_lt.
Qed.

Lemma length_T (m : matrix) : length (np.T m) = np.ncols m.
Proof. unfold np.T. now rewrite length_map, length_seq. Qed.

Lemma dot_Ok (n : nat) (a b : matrix) :
  Forall (fun r => length r = n) a -> length b = n ->
  np.dot a b = Ok (map (fun r => map (np.dotp r) (np.T b)) a).
Proof.
  intros Ha Hb. unfold np.dot.
  replace (forallb (fun r => (length r =? length b)%nat) a) with true;
    [reflexivity|].
  symmetry. apply forallb_forall. intros r Hr.
  rewrite Forall_forall in Ha. rewrite (Ha r Hr), Hb. apply Nat.eqb_refl.
Qed.

(* ================================================================== *)
(** ** Sorting *)

Lemma Forall2_Qeq_refl (l : vector) : Forall2 Qeq l l.
Proof. induction l; constructor; [reflexivity|assumption]. Qed.

Lemma Forall2_Qeq_trans (l1 l2 l3 : vector) :
  Forall2 Qeq l1 l2 -> Forall2 Qeq l2 l3 -> Forall2 Qeq l1 l3.
Proof.
  intros H; revert l3; induction H as [|x y l l' Hxy _ IH]; intros l3 H3;
    inversion H3; subst; constructor.
  - now rewrite Hxy.
  - now apply IH.
Qed.

Lemma Qle_bool_false (x y : Q) : Qle_bool x y = false -> (y < x)%Q.
Proof.
  intros H. apply Qnot_le_lt. intros Hle.
  apply Qle_bool_iff in Hle. congruence.
Qed.

Lemma map_fst_insert_key (p : Q * nat) (l : list (Q * nat)) :
  map fst (np.insert_key p l) = np.insert (fst p) (map fst l).
Proof.
  induction l as [|q l IH]; simpl; [reflexivity|].
  destruct (Qle_bool (fst p) (fst q)); simpl; [reflexivity|now rewrite IH].
Qed.

Lemma map_fst_sort_keys (l : list (Q * nat)) :
  map fst (np.sort_keys l) = np.sort (map fst l).
Proof.
  induction l as [|p l IH]; simpl; [reflexivity|].
  unfold np.sort_keys in *. simpl. now rewrite map_fst_insert_key, IH.
Qed.

Lemma insert_key_perm (p : Q * nat) (l : list (Q * nat)) :
  Permutation (np.insert_key p l) (p :: l).
Proof.
  induction l as [|q l IH]; simpl; [reflexivity|].
  destruct (Qle_bool (fst p) (fst q)); [reflexivity|].
  rewrite IH. apply perm_swap.
Qed.

Lemma sort_keys_perm (l : list (Q * nat)) : Permutation (np.sort_keys l) l.
Proof.
  induction l as [|p l IH]; simpl; [reflexivity|].
  unfold np.sort_keys in *. simpl. rewrite insert_key_perm. now constructor.
Qed.

Lemma insert_perm (x : Q) (l : vector) : Permutation (np.insert x l) (x :: l).
Proof.
  induction l as [|y l IH]; simpl; [reflexivity|].
  destruct (Qle_bool x y); [reflexivity|].
  rewrite IH. apply perm_swap.
Qed.

Lemma sort_perm (v : vector) : Permutation (np.sort v) v.
Proof.
  induction v as [|x v IH]; simpl; [reflexivity|].
  unfold np.sort in *. simpl. rewrite insert_perm. now constructor.
Qed.

Lemma insert_sorted (x : Q) (l : vector) :
  Sorted Qle l -> Sorted Qle (np.insert x l).
Proof.
  induction l as [|y l IH]; intros Hs; simpl.
  - repeat constructor.
  - destruct (Qle_bool x y) eqn:E.
    + constructor; [assumption|]. constructor. now apply Qle_bool_iff.
    + inversion Hs as [|? ? Hs' Hd]; subst.
      constructor; [now apply IH|].
      apply Qle_bool_false in E.
      destruct l as [|z l]; simpl.
      * constructor. lra.
      * inversion Hd; subst.
        destruct (Qle_bool x z); constructor; lra.
Qed.

Lemma sort_sorted (v : vector) : Sorted Qle (np.sort v).
Proof.
  induction v as [|x v IH]; simpl; [constructor|].
  now apply insert_sorted.
Qed.

(** Sorting leaves an ascending vector as it is. *)
Lemma sort_of_sorted (v : vector) : Sorted Qle v -> np.sort v = v.
Proof.
  induction v as [|x v IH]; intros Hs; [reflexivity|].
  inversion Hs as [|? ? Hs' Hd]; subst.
  unfold np.sort in *. simpl. rewrite (IH Hs').
  destruct v as [|y v]; [reflexivity|].
  inversion Hd; subst. simpl.
  replace (Qle_bool x y) with true; [reflexivity|].
  symmetry. now apply Qle_bool_iff.
Qed.

Ltac split_Qle_bool :=
  repeat (simpl;
          match goal with
          | |- context [Qle_bool ?a ?b] =>
              let E := fresh "E" in
              destruct (Qle_bool a b) eqn:E;
              [apply Qle_bool_iff in E | apply Qle_bool_false in E]
          end).

Ltac pointwise_Qeq :=
  first
    [ solve [ repeat (apply Forall2_cons; [lra|]);
              first [apply Forall2_Qeq_refl | assumption | apply Forall2_nil] ]
    | solve [ exfalso; lra ] ].

Lemma insert_pointwise (x y : Q) (l l' : vector) :
  (x == y)%Q -> Forall2 Qeq l l' ->
  Forall2 Qeq (np.insert x l) (np.insert y l').
Proof.
  intros Hxy H; induction H as [|a b l l' Hab H IH].
  - simpl. pointwise_Qeq.
  - split_Qle_bool; pointwise_Qeq.
Qed.

Lemma insert_insert (x y : Q) (l : vector) :
  Forall2 Qeq (np.insert x (np.insert y l)) (np.insert y (np.insert x l)).
Proof.
  induction l as [|z l IH]; split_Qle_bool; pointwise_Qeq.
Qed.

(** Two vectors with the same values sort to the same values. *)
Lemma sort_perm_pointwise (l1 l2 : vector) :
  Permutation l1 l2 -> Forall2 Qeq (np.sort l1) (np.sort l2).
Proof.
  unfold np.sort.
  induction 1 as [|x l l' _ IH|x y l|l l' l'' _ IH1 _ IH2]; simpl.
  - constructor.
  - apply insert_pointwise; [reflexivity|exact IH].
  - apply insert_insert.
  - eapply Forall2_Qeq_trans; eassumption.
Qed.

(** The values of an ascending arrangement do not depend on how ties were
    broken. *)
Lemma sorted_perm_pointwise (l1 l2 : vector) :
  Sorted Qle l1 -> Sorted Qle l2 -> Permutation l1 l2 -> Forall2 Qeq l1 l2.
Proof.
  intros H1 H2 HP.
  rewrite <- (sort_of_sorted l1 H1), <- (sort_of_sorted l2 H2).
  now apply sort_perm_pointwise.
Qed.

Lemma combine_fst {A B : Type} (l : list A) (l' : list B) :
  length l = length l' -> map fst (combine l l') = l.
Proof.
  revert l'; induction l as [|x l IH]; intros [|y l'] H; simpl in *;
    try reflexivity; try discriminate.
  f_equal. apply IH. lia.
Qed.

Lemma combine_snd {A B : Type} (l : list A) (l' : list B) :
  length l = length l' -> map snd (combine l l') = l'.
Proof.
  revert l'; induction l as [|x l IH]; intros [|y l'] H; simpl in *;
    try reflexivity; try discriminate.
  f_equal. apply IH. lia.
Qed.

Lemma combine_seq_lookup (v pre : vector) :
  Forall (fun p => nth_error (pre ++ v) (snd p) = Some (fst p))
         (combine v (seq (length pre) (length v))).
Proof.
  revert pre; induction v as [|x v IH]; intros pre; simpl; constructor.
  - simpl. rewrite nth_error_app2 by lia. now rewrite Nat.sub_diag.
  - specialize (IH (pre ++ [x])).
    rewrite <- app_assoc, length_app in IH. simpl in IH.
    now rewrite Nat.add_1_r in IH.
Qed.

Lemma map_nth_seq {A : Type} (d : A) (l pre : list A) :
  map (fun i => nth i (pre ++ l) d) (seq (length pre) (length l)) = l.
Proof.
  revert pre; induction l as [|x l IH]; intros pre; simpl; [reflexivity|].
  rewrite app_nth2 by lia. rewrite Nat.sub_diag. simpl. f_equal.
  specialize (IH (pre ++ [x])).
  rewrite <- app_assoc, length_app in IH. simpl in IH.
  now rewrite Nat.add_1_r in IH.
Qed.

Lemma Sorted_map {A B : Type} (R : B -> B -> Prop) (f : A -> B) (l : list A) :
  Sorted R (map f l) <-> Sorted (fun a b => R (f a) (f b)) l.
Proof.
  induction l as [|x l IH]; simpl; split; intros H;
    try solve [constructor];
    inversion H as [|? ? Hs Hd]; subst; constructor;
      try (now apply IH);
      destruct l; simpl in *; constructor; now inversion Hd.
Qed.

Lemma Forall2_nth_error {A B : Type} (R : A -> B -> Prop) (l : list A)
    (l' : list B) (k : nat) (a : A) (b : B) :
  Forall2 R l l' -> nth_error l k = Some a -> nth_error l' k = Some b -> R a b.
Proof.
  intros H; revert k; induction H as [|x y l l' Hxy _ IH]; intros [|k] Ha Hb;
    simpl in *; try discriminate.
  - now injection Ha as <-; injection Hb as <-.
  - eapply IH; eassumption.
Qed.

(** [argsort] returns each index once. *)
Lemma argsort_perm (v : vector) :
  Permutation (np.argsort v) (seq 0 (length v)).
Proof.
  unfold np.argsort.
  rewrite <- (combine_snd v (seq 0 (length v))) at 2
    by now rewrite length_seq.
  apply Permutation_map, sort_keys_perm.
Qed.

(** Read through [argsort], a vector is in ascending order. *)
Lemma argsort_sort (v : vector) :
  map (fun i => nth i v 0%Q) (np.argsort v) = np.sort v.
Proof.
  unfold np.argsort.
  pose proof (combine_seq_lookup v []) as Hl. simpl in Hl.
  apply (Permutation_Forall (Permutation_sym (sort_keys_perm _))) in Hl.
  rewrite <- (combine_fst v (seq 0 (length v))) at 3
    by now rewrite length_seq.
  rewrite <- map_fst_sort_keys, map_map.
  apply map_ext_in. intros p Hp.
  rewrite Forall_forall in Hl. now apply nth_error_nth, Hl.
Qed.

Lemma ascending_perm (z_points : matrix) :
  Permutation (ascending z_points) z_points.
Proof.
  unfold ascending.
  eapply Permutation_trans; [apply Permutation_map, argsort_perm|].
  rewrite length_map.
  apply Permutation_refl'. exact (map_nth_seq [] z_points []).
Qed.

Lemma ascending_depths (z_points : matrix) :
  map depth_of (ascending z_points) = np.sort (map depth_of z_points).
Proof.
  unfold ascending. rewrite map_map, <- argsort_sort.
  apply map_ext. intros i.
  symmetry. exact (map_nth depth_of z_points [] i).
Qed.

Lemma ascending_sorted (z_points : matrix) :
  Sorted by_depth (ascending z_points).
Proof.
  apply (Sorted_map Qle depth_of). rewrite ascending_depths.
  apply sort_sorted.
Qed.

(** What [closest_point] returns: the element of rank [len / 4] in the
    order of [argsort]. *)
Lemma closest_point_rank (z_points : matrix) :
  z_points <> [] -> Forall (fun p => length p = 3) z_points ->
  exists chosen,
    closest_point z_points = Ok chosen /\
    nth_error (ascending z_points) (length z_points / 4) = Some chosen.
Proof.
  intros Hne Hw. unfold closest_point.
  rewrite (col_Ok 2 3 z_points Hw) by lia. cbn [bind].
  change (fun r : list Q => nth 2 r 0%Q) with depth_of.
  set (d := map depth_of z_points).
  assert (Hn : length z_points / 4 < length z_points).
  { apply Nat.div_lt; [|lia]. destruct z_points; [congruence|simpl; lia]. }
  assert (Hlen : length (np.argsort d) = length z_points).
  { rewrite (Permutation_length (argsort_perm d)), length_seq.
    apply length_map. }
  destruct (nth_error (np.argsort d) (length z_points / 4)) as [i|] eqn:Ei.
  2:{ apply nth_error_None in Ei. lia. }
  assert (Hi : i < length z_points).
  { apply nth_error_In in Ei.
    apply (Permutation_in _ (argsort_perm d)) in Ei.
    apply in_seq in Ei. unfold d in Ei. rewrite length_map in Ei. lia. }
  destruct (nth_error z_points i) as [p|] eqn:Ep.
  2:{ apply nth_error_None in Ep. lia. }
  exists p. split; [reflexivity|].
  unfold ascending. fold d.
  rewrite (map_nth_error _ _ _ Ei). f_equal.
  now apply nth_error_nth.
Qed.

Lemma Sorted_pointwise (l l' : vector) :
  Forall2 Qeq l l' -> Sorted Qle l' -> Sorted Qle l.
Proof.
  intros H; induction H as [|x y l l' Hxy H IH]; intros Hs; [constructor|].
  inversion Hs as [|? ? Hs' Hd]; subst. constructor; [now apply IH|].
  destruct H; constructor. inversion Hd; subst. lra.
Qed.

(* ================================================================== *)
(** ** The first-quartile point of a bounding box *)

(** C5.  For every non-empty selection of points (rows of three
    coordinates), the point chosen is the one of rank [len / 4], counting
    from 0, when the selection is put in ascending order of depth (third
    coordinate): [ascending z_points] is a rearrangement of the selection, it
    is ascending in depth, and the chosen point is its element of index
    [len / 4].  The depth chosen does not depend on how equal depths are
    ordered: every ascending rearrangement of the selection has a point of
    the same depth at that index.  In particular, for eight points whose
    depths are 1, 2, ..., 8 the chosen depth is 3, the third smallest. *)
Theorem closest_point_is_first_quartile :
  forall z_points : matrix,
    z_points <> [] ->
    Forall (fun p => length p = 3) z_points ->
    exists chosen,
      closest_point z_points = Ok chosen /\
      Permutation (ascending z_points) z_points /\
      Sorted by_depth (ascending z_points) /\
      nth_error (ascending z_points) (length z_points / 4) = Some chosen /\
      (forall ordered,
          Permutation ordered z_points -> Sorted by_depth ordered ->
          exists p, nth_error ordered (length z_points / 4) = Some p /\
                    (depth_of p == depth_of chosen)%Q) /\
      (forall ordered,
          Permutation ordered z_points ->
          Forall2 Qeq (map depth_of ordered) [1; 2; 3; 4; 5; 6; 7; 8]%Q ->
          (depth_of chosen == 3)%Q).
Proof.
  intros z_points Hne Hw.
  destruct (closest_point_rank z_points Hne Hw) as (chosen & Hc & Hrank).
  assert (Hany : forall ordered,
             Permutation ordered z_points -> Sorted by_depth ordered ->
             exists p, nth_error ordered (length z_points / 4) = Some p /\
                       (depth_of p == depth_of chosen)%Q).
  { intros ordered HP HS.
    assert (Hk : length z_points / 4 < length ordered).
    { rewrite (Permutation_length HP).
      apply Nat.div_lt; [|lia]. destruct z_points; [congruence|simpl; lia]. }
    destruct (nth_error ordered (length z_points / 4)) as [p|] eqn:Ep.
    2:{ apply nth_error_None in Ep. lia. }
    exists p. split; [reflexivity|].
    assert (Hpw : Forall2 Qeq (map depth_of ordered)
                              (map depth_of (ascending z_points))).
    { apply sorted_perm_pointwise.
      - now apply (Sorted_map Qle depth_of).
      - apply (Sorted_map Qle depth_of), ascending_sorted.
      - apply Permutation_map.
        rewrite HP. symmetry. apply ascending_perm. }
    apply (Forall2_nth_error Qeq _ _ (length z_points / 4) _ _ Hpw).
    - apply map_nth_error. exact Ep.
    - apply map_nth_error. exact Hrank. }
  exists chosen. repeat split.
  - exact Hc.
  - apply ascending_perm.
  - apply ascending_sorted.
  - exact Hrank.
  - exact Hany.
  - intros ordered HP H8.
    assert (Hlen : length z_points = 8).
    { rewrite <- (Permutation_length HP), <- (length_map depth_of ordered).
      now rewrite (Forall2_length H8). }
    destruct (Hany ordered HP) as (p & Hp & Hd).
    { apply (Sorted_map Qle depth_of).
      apply (Sorted_pointwise _ _ H8).
      repeat constructor; unfold Qle; simpl; lia. }
    rewrite <- Hd. rewrite Hlen in Hp. change (8 / 4) with 2 in Hp.
    apply (Forall2_nth_error Qeq _ _ 2 _ _ H8).
    + apply map_nth_error. exact Hp.
    + reflexivity.
Qed.

(** The rule applied to eight points given out of order, two of them at the
    same depth. *)
Lemma closest_point_is_first_quartile_witness :
  exists chosen,
    closest_point [[0; 0; 8]; [1; 0; 2]; [0; 1; 1]; [0; 0; 2];
                   [0; 0; 5]; [0; 0; 4]; [0; 0; 7]; [0; 0; 6]]%Q = Ok chosen.
Proof.
  destruct (closest_point_is_first_quartile
              [[0; 0; 8]; [1; 0; 2]; [0; 1; 1]; [0; 0; 2];
               [0; 0; 5]; [0; 0; 4]; [0; 0; 7]; [0; 0; 6]]%Q)
    as (chosen & Hc & _).
  - discriminate.
  - repeat constructor.
  - exists chosen. exact Hc.
Defined.

(* ================================================================== *)
(** ** The axis conversion *)

(** C8.  For every 3-D point P = (x, y, z), taken as a row vector: the
    inverse of the LiDAR-to-camera matrix exists, and multiplying P by
    [VELODYNE_MATRIX] and then by that inverse returns P, coordinate by
    coordinate, in exact arithmetic. *)
Theorem velodyne_round_trip :
  forall x y z : Q,
    exists inverse camera back,
      INV_VELODYNE_MATRIX = Ok inverse /\
      np.dot [[x; y; z]] VELODYNE_MATRIX = Ok [camera] /\
      np.dot [camera] inverse = Ok [back] /\
      Forall2 Qeq back [x; y; z].
Proof.
  intros x y z.
  eexists; eexists; eexists.
  split; [vm_compute; reflexivity|].
  split; [reflexivity|].
  split; [reflexivity|].
  repeat (apply Forall2_cons; [cbn; ring|]).
  constructor.
Qed.

(* ================================================================== *)
(** ** The event handlers *)

Section Properties.

Variable camera_view_T : ndarray -> result ndarray.
Variable extrinsic : vector -> result matrix.

Lemma on_input_lidar_pc (self : Operator) (ev : dora_event) :
  id ev = "lidar_pc" ->
  on_input camera_view_T extrinsic self ev = on_lidar_pc camera_view_T self ev.
Proof. unfold on_input. now intros ->. Qed.

Lemma on_input_position (self : Operator) (ev : dora_event) :
  id ev = "position" ->
  on_input camera_view_T extrinsic self ev = on_position extrinsic self ev.
Proof. unfold on_input. now intros ->. Qed.

Lemma on_input_lanes (self : Operator) (ev : dora_event) :
  id ev = "lanes" ->
  on_input camera_view_T extrinsic self ev = on_lanes self ev.
Proof. unfold on_input. now intros ->. Qed.

Lemma on_input_obstacles_bbox (self : Operator) (ev : dora_event) :
  id ev = "obstacles_bbox" ->
  on_input camera_view_T extrinsic self ev = on_obstacles_bbox self ev.
Proof. unfold on_input. now intros ->. Qed.

(** Every handler leaves the ground partition as it was, except the
    point-cloud handler, which may replace it by an array without rows. *)
Lemma ground_after_input (self : Operator) (ev : dora_event) :
  ground_point_cloud (state_of (on_input camera_view_T extrinsic self ev))
  = ground_point_cloud self
  \/ exists m,
      ground_point_cloud (state_of (on_input camera_view_T extrinsic self ev))
      = NdArray (Empty3 m).
Proof.
  unfold on_input.
  destruct (String.eqb "lidar_pc" (id ev)).
  { unfold on_lidar_pc.
    repeat match goal with
           | |- context [match ?r with Ok _ => _ | Err _ => _ end] =>
               destruct r; simpl; auto
           end.
    all: right; unfold np.getitem, np.eq_False in *;
      match goal with
      | H : Ok _ = Ok _ |- _ => injection H as <-
      | _ => idtac
      end; eauto. }
  destruct (String.eqb "position" (id ev)).
  { unfold on_position. destruct (extrinsic _); simpl; auto. }
  destruct (String.eqb "lanes" (id ev)).
  { unfold on_lanes.
    repeat match goal with
           | |- context [match ?r with Ok _ => _ | Err _ => _ end] =>
               destruct r; simpl; auto
           end. }
  destruct (String.eqb "obstacles_bbox" (id ev)); [|simpl; auto].
  unfold on_obstacles_bbox.
  destruct (_ || _); [simpl; auto|].
  destruct (np.reshape _ _); [|simpl; auto].
  simpl point_cloud. destruct (point_cloud self); [simpl; auto|].
  repeat match goal with
         | |- context [match ?r with Ok _ => _ | Err _ => _ end] =>
             destruct r; simpl; auto
         | |- context [if ?b then _ else _] => destruct b; simpl; auto
         end.
Qed.

Ltac split_results :=
  repeat match goal with
         | |- context [match ?r with Ok _ => _ | Err _ => _ end] =>
             destruct r; simpl; auto
         | |- context [if ?b then _ else _] => destruct b; simpl; auto
         end.

(** Handling a lane event leaves the operator object as it was. *)
Lemma on_lanes_state (self : Operator) (ev : dora_event) :
  state_of (on_lanes self ev) = self.
Proof. unfold on_lanes. split_results. Qed.

(** Handling a bounding-box event writes at most [obstacles_bbox]. *)
Lemma on_obstacles_bbox_state (self : Operator) (ev : dora_event) :
  state_of (on_obstacles_bbox self ev) = self
  \/ exists boxes,
      state_of (on_obstacles_bbox self ev) = set_obstacles_bbox self boxes.
Proof.
  unfold on_obstacles_bbox.
  destruct (_ || _); [simpl; auto|].
  destruct (np.reshape _ _) as [boxes|]; [|simpl; auto].
  right. exists boxes.
  simpl point_cloud. destruct (point_cloud self); [reflexivity|].
  simpl camera_point_cloud. simpl extrinsic_matrix.
  split_results.
Qed.

(** C6.  For every bounding-box event received while the held position or
    the held point cloud is still empty (as both are until a pose event
    and a point-cloud event have been handled): the handler returns
    [CONTINUE], sends no output, raises nothing and leaves the operator as
    it was, so that the events that follow are handled as if this one had
    not been delivered. *)
Theorem bbox_before_ready_is_ignored :
  forall (self : Operator) (ev : dora_event),
    id ev = "obstacles_bbox" ->
    len_rows (position self) = 0 \/ len_rows (point_cloud self) = 0 ->
    on_input camera_view_T extrinsic self ev = Return CONTINUE self []
    /\ (type ev = "INPUT" ->
        forall rest,
          run camera_view_T extrinsic self (ev :: rest)
          = run camera_view_T extrinsic self rest).
Proof.
  intros self ev Hid Hlen.
  assert (H : on_input camera_view_T extrinsic self ev
              = Return CONTINUE self []).
  { rewrite (on_input_obstacles_bbox self ev Hid). unfold on_obstacles_bbox.
    destruct Hlen as [-> | ->]; simpl; [reflexivity|].
    now rewrite orb_true_r. }
  split; [exact H|].
  intros Hty rest. simpl. unfold on_event. rewrite Hty. simpl.
  rewrite H. simpl. now destruct (run camera_view_T extrinsic self rest).
Qed.

(** C10.  Handling a lane event or a bounding-box event, whether the
    handler returns or raises, leaves unchanged the held point cloud, its
    camera projection, the ground partition, its camera projection, the
    position and the extrinsic matrix, as well as the fields no handler
    uses; a lane event changes no field at all, and a bounding-box event
    changes at most [obstacles_bbox]. *)
Theorem localization_does_not_modify_held_state :
  forall (self : Operator) (ev : dora_event),
    id ev = "lanes" \/ id ev = "obstacles_bbox" ->
    fusion_state (state_of (on_input camera_view_T extrinsic self ev))
    = fusion_state self
    /\ untouched_fields (state_of (on_input camera_view_T extrinsic self ev))
       = untouched_fields self
    /\ (id ev = "lanes" ->
        state_of (on_input camera_view_T extrinsic self ev) = self)
    /\ (id ev = "obstacles_bbox" ->
        state_of (on_input camera_view_T extrinsic self ev) = self
        \/ exists boxes,
            state_of (on_input camera_view_T extrinsic self ev)
            = set_obstacles_bbox self boxes).
Proof.
  intros self ev [Hid | Hid].
  - rewrite (on_input_lanes self ev Hid), on_lanes_state.
    repeat split; auto.
  - rewrite (on_input_obstacles_bbox self ev Hid).
    destruct (on_obstacles_bbox_state self ev) as [-> | (boxes & ->)].
    + repeat split; auto.
    + repeat split; eauto.
      intros Hl. rewrite Hl in Hid. discriminate.
Qed.

Lemma reachable_no_ground (self : Operator) :
  reachable camera_view_T extrinsic self -> no_ground self.
Proof.
  induction 1 as [|self ev _ IH]; [now left|].
  unfold on_event. destruct (String.eqb (type ev) "INPUT").
  - destruct (ground_after_input self ev) as [E | (m & E)].
    + unfold no_ground. now rewrite E.
    + right. now exists m.
  - exact IH.
Qed.

(** C9.  Whatever the input cloud, a point-cloud event that is handled to
    the end leaves as ground partition an array of shape (0, m, c), which
    has no row: the index [above_ground_point_index == False] is the
    scalar [False].  Hence in every state the operator can reach, from
    [__init__] through any sequence of events, the held ground partition
    has length 0. *)
Theorem ground_partition_is_always_empty :
  (forall (self : Operator) (ev : dora_event) status self' sent,
      id ev = "lidar_pc" ->
      on_input camera_view_T extrinsic self ev = Return status self' sent ->
      exists m, ground_point_cloud self' = NdArray (Empty3 m))
  /\ (forall self : Operator,
        reachable camera_view_T extrinsic self ->
        len len_ndarray (ground_point_cloud self) = 0).
Proof.
  split.
  - intros self ev status self' sent Hid H.
    rewrite (on_input_lidar_pc self ev Hid) in H.
    unfold on_lidar_pc, np.getitem, np.eq_False in H.
    repeat match type of H with
           | context [match ?r with Ok _ => _ | Err _ => _ end] =>
               lazymatch r with
               | Ok _ => cbv beta iota in H
               | _ => destruct r; try discriminate
               end
           end.
    injection H as _ <- _. simpl. eauto.
  - intros self Hr.
    destruct (reachable_no_ground self Hr) as [-> | (m & ->)]; reflexivity.
Qed.

(** In no reachable state does a lane event send anything: the handler
    raises, at the latest when the regressor is fitted. *)
Lemma lane_event_always_raises (self : Operator) (ev : dora_event) :
  reachable camera_view_T extrinsic self -> id ev = "lanes" ->
  exists e, on_input camera_view_T extrinsic self ev = Raise e self.
Proof.
  intros Hr Hid. rewrite (on_input_lanes self ev Hid). unfold on_lanes.
  destruct (np.reshape3 60 2 _); [|eauto].
  destruct (first_two_columns _) as [X|]; [|eauto].
  assert (HX : sklearn.fit 4 X (ground_point_cloud self) = Err ValueError).
  { unfold sklearn.fit.
    destruct X as [|Xr|]; try reflexivity.
    destruct (_ || _); [reflexivity|].
    destruct (reachable_no_ground self Hr) as [-> | (m & ->)]; reflexivity. }
  rewrite HX. eauto.
Qed.

Lemma Forall_kept {A : Type} (P : A -> Prop) (f : A -> bool) (l : list A) :
  Forall P l -> Forall P (filter f l).
Proof.
  rewrite !Forall_forall. intros H x Hx. apply filter_In in Hx.
  now apply H.
Qed.

(** What the point-cloud handler holds afterwards: of the camera-frame
    points, the held cloud keeps those in front of the sensor and above the
    ground, in order; the ground partition is an array without rows. *)
Lemma on_lidar_pc_held (self : Operator) (ev : dora_event) (raw : matrix) :
  id ev = "lidar_pc" ->
  np.reshape 3 (view_float32 (value ev)) = Ok raw ->
  exists camera_frame,
    np.dot raw VELODYNE_MATRIX = Ok camera_frame
    /\ ground_point_cloud (state_of (on_input camera_view_T extrinsic self ev))
       = NdArray
           (Empty3 (length (filter above_ground (filter forward camera_frame))))
    /\ (forall status self' sent,
          on_input camera_view_T extrinsic self ev
          = Return status self' sent ->
          point_cloud self'
          = NdArray (filter above_ground (filter forward camera_frame))).
Proof.
  intros Hid Hre.
  destruct (reshape_Ok 3 _ raw ltac:(lia) Hre) as (Hraw & _ & _).
  pose proof (dot_Ok 3 raw VELODYNE_MATRIX Hraw eq_refl) as Hdot.
  set (camera_frame :=
         map (fun r => map (np.dotp r) (np.T VELODYNE_MATRIX)) raw) in *.
  assert (Hcam : Forall (fun p => length p = 3) camera_frame).
  { unfold camera_frame. rewrite Forall_map. apply Forall_forall.
    intros r _. now rewrite length_map. }
  exists camera_frame. split; [exact Hdot|].
  pose proof (Forall_kept _ forward _ Hcam) as Hfwd.
  rewrite (on_input_lidar_pc self ev Hid). unfold on_lidar_pc.
  rewrite Hre, Hdot, (col_Ok 2 3 camera_frame Hcam) by lia.
  rewrite map_map.
  change (fun x : list Q => np.Qltb FORWARD_DEPTH (nth 2 x 0%Q)) with forward.
  rewrite take_where_map.
  rewrite (col_Ok 1 3 _ Hfwd) by lia.
  rewrite map_map.
  change (fun x : list Q => np.Qltb (nth 1 x 0%Q) GROUND_HEIGHT)
    with above_ground.
  rewrite take_where_map.
  unfold np.getitem, np.eq_False.
  destruct (camera_view_T (Arr2 _)); [destruct (camera_view_T (Empty3 _))|];
    simpl; (split; [reflexivity|]); intros status self' sent H;
    try discriminate.
  now injection H as _ <- _.
Qed.

(** C2.  A lane event delivered to a freshly constructed operator (no
    point-cloud or pose event handled yet, empty ground partition): the
    handler raises [TypeError], because [camera_ground_point_cloud] is
    still the Python list [[]], which [[:, :2]] cannot index; nothing is
    sent. *)
Theorem lane_event_before_ready_raises :
  forall md : string,
    on_input camera_view_T extrinsic init
      {| type := "INPUT"; id := "lanes";
         value := {| view_float32 := []; view_int32 := repeat 0%Z 120 |};
         metadata := md |}
    = Raise TypeError init.
Proof. intros md. reflexivity. Qed.

(** C3.  The point-cloud event with the two LiDAR points (5, 0, 0) and
    (5, 0, -2), delivered to a fresh operator.  In the camera frame the
    points are (0, 0, 5) and (0, 2, 5), both at depth 5 > 0.1; the second
    has height 2, not below 1.0, and belongs to the ground set.  The held
    ground partition is nevertheless an array of shape (0, 1, c), without
    rows, and the held point cloud is [(0, 0, 5)] when the handler returns
    (and still the list of [__init__] when a projection raised): the point
    (0, 2, 5) is in neither. *)
Theorem ground_points_are_dropped :
  let ev :=
    {| type := "INPUT"; id := "lidar_pc";
       value := {| view_float32 := [5; 0; 0; 5; 0; -(2)]%Q;
                   view_int32 := [] |};
       metadata := "" |} in
  np.dot [[5; 0; 0]; [5; 0; -(2)]]%Q VELODYNE_MATRIX
  = Ok [[0; 0; 5]; [0; 2; 5]]%Q
  /\ ground_point_cloud (state_of (on_input camera_view_T extrinsic init ev))
     = NdArray (Empty3 1)
  /\ len len_ndarray
         (ground_point_cloud
          (state_of (on_input camera_view_T extrinsic init ev)))
     = 0
  /\ match on_input camera_view_T extrinsic init ev with
     | Return _ self' _ => point_cloud self' = NdArray [[0; 0; 5]]%Q
     | Raise _ self' => point_cloud self' = PyList
     end.
Proof.
  intros ev.
  assert (H : ground_point_cloud
                (state_of (on_input camera_view_T extrinsic init ev))
              = NdArray (Empty3 1)).
  { vm_compute.
    destruct (camera_view_T _); [destruct (camera_view_T _)|]; reflexivity. }
  split; [vm_compute; reflexivity|].
  split; [exact H|].
  split; [now rewrite H|].
  vm_compute.
  destruct (camera_view_T _); [destruct (camera_view_T _)|]; reflexivity.
Qed.

(** *** The bounding-box handler on a ready operator *)

Lemma length_6 {A : Type} (l : list A) :
  length l = 6 -> exists a b c d e f, l = [a; b; c; d; e; f].
Proof.
  destruct l as [|a [|b [|c [|d [|e [|f [|g l]]]]]]]; simpl; intros H;
    try discriminate.
  now exists a, b, c, d, e, f.
Qed.

Lemma select_In {A : Type} (a : list A) (mask : list bool) (x : A) :
  In x (map fst (filter snd (combine a mask))) -> In x a.
Proof.
  intros H. apply in_map_iff in H as ((y & b) & <- & H).
  apply filter_In in H as (H & _). now apply in_combine_l in H.
Qed.

(** On an indexed cloud the selection of a box never fails, and selects
    points of the cloud. *)
Lemma points_in_box_Ok (cloud camera : matrix) (bb : list Z) :
  length camera = length cloud ->
  Forall (fun r => length r = 3) camera ->
  Forall (fun p => length p = 3) cloud ->
  length bb = 6 ->
  exists z_points,
    points_in_box cloud (NdArray (Arr2 camera)) bb = Ok z_points
    /\ Forall (fun p => length p = 3) z_points.
Proof.
  intros Hlen Hcam Hcloud Hbb.
  destruct (length_6 bb Hbb) as (min_x & max_x & min_y & max_y & c & l & ->).
  unfold points_in_box, column.
  rewrite (col_Ok 0 3 camera Hcam) by lia.
  rewrite (col_Ok 1 3 camera Hcam) by lia.
  cbn [bind].
  rewrite take_where.
  - eexists. split; [reflexivity|].
    apply Forall_forall. intros p Hp. apply select_In in Hp.
    rewrite Forall_forall in Hcloud. now apply Hcloud.
  - unfold inside. rewrite length_map, length_combine, !length_map. lia.
Qed.

(** The loop over the boxes yields one location per localizable box, in
    the order of the boxes: the first-quartile point of that box. *)
Lemma locate_localizable (self : Operator) (cloud camera : matrix)
    (boxes : list (list Z)) :
  indexed self cloud camera ->
  Forall (fun bb => length bb = 6) boxes ->
  exists locations,
    locate cloud (camera_point_cloud self) boxes = Ok locations
    /\ Forall2
         (fun location bb =>
            exists z_points,
              points_in_box cloud (camera_point_cloud self) bb = Ok z_points
              /\ z_points <> []
              /\ closest_point z_points = Ok location)
         locations (filter (localizable self) boxes).
Proof.
  intros (Hpc & Hcam & Hlen & Hwc & Hwp) Hboxes.
  assert (Hl : forall bb,
             localizable self bb
             = match points_in_box cloud (NdArray (Arr2 camera)) bb with
               | Ok (_ :: _) => true
               | _ => false
               end).
  { intros bb. unfold localizable. now rewrite Hpc, Hcam. }
  rewrite Hcam.
  induction Hboxes as [|bb boxes Hbb _ (locations & Hloc & Hall)].
  - exists []. split; [reflexivity|constructor].
  - destruct (points_in_box_Ok cloud camera bb Hlen Hwc Hwp Hbb)
      as (z_points & Hz & Hzw).
    simpl. rewrite Hl, Hz. cbn [bind].
    destruct z_points as [|p z_points].
    + simpl. exists locations. split; assumption.
    + destruct (closest_point_rank (p :: z_points)) as (chosen & Hc & _);
        [discriminate|assumption|].
      change (0 <? length (p :: z_points)) with true. cbv iota.
      rewrite Hc. cbn [bind]. rewrite Hloc. cbn [bind].
      exists (chosen :: locations). split; [reflexivity|].
      constructor; [|assumption].
      exists (p :: z_points).
      repeat split; [assumption|discriminate|assumption].
Qed.

Lemma to_world_length (e : option matrix) (a w : matrix) :
  to_world e a = Ok w -> length w = length a.
Proof.
  unfold to_world, np.dot. destruct e as [e|]; [|discriminate].
  destruct (forallb _ _); [|discriminate].
  cbn [bind]. intros [= <-].
  unfold np.first_cols, np.hstack_ones. now rewrite !length_map.
Qed.

Lemma Forall2_filter_length {A B : Type} (R : A -> B -> Prop) (f : B -> bool)
    (l : list A) (l' : list B) :
  Forall2 R l (filter f l') -> length l <= length l'.
Proof.
  intros H. rewrite (Forall2_length H). apply filter_length_le.
Qed.

(** *** Shapes of the rows that are sent *)

Lemma length_concat_uniform {A : Type} (n : nat) (l : list (list A)) :
  Forall (fun r => length r = n) l -> length (concat l) = length l * n.
Proof.
  induction 1 as [|r l Hr _ IH]; simpl; [reflexivity|].
  rewrite length_app, IH, Hr. lia.
Qed.

(** A 4 x 4 extrinsic matrix takes n points of three coordinates to n
    points of three coordinates. *)
Lemma to_world_shape (e a : matrix) :
  square 4 e -> Forall (fun p => length p = 3) a ->
  exists w,
    to_world (Some e) a = Ok w
    /\ length w = length a
    /\ Forall (fun p => length p = 3) w.
Proof.
  intros (He & Hrows) Ha. unfold to_world.
  assert (Hnc : np.ncols e = 4).
  { destruct e as [|r e]; [discriminate|]. now inversion Hrows. }
  assert (HT : length (np.T e) = 4) by now rewrite length_T.
  assert (HTT : length (np.T (np.T e)) = 4).
  { rewrite length_T. unfold np.T. rewrite Hnc. simpl.
    now rewrite length_map. }
  rewrite (dot_Ok 4).
  - cbn [bind]. eexists. split; [reflexivity|]. split.
    + unfold np.first_cols, np.hstack_ones. now rewrite !length_map.
    + unfold np.first_cols, np.hstack_ones. rewrite !Forall_map.
      apply Forall_forall. intros p _.
      rewrite length_firstn, length_map, HTT. reflexivity.
  - unfold np.hstack_ones. rewrite Forall_map.
    revert Ha. apply Forall_impl. intros p Hp.
    rewrite length_app, Hp. reflexivity.
  - exact HT.
Qed.

End Properties.

(* ================================================================== *)
(** ** The handlers on concrete events *)

Lemma bbox_before_ready_is_ignored_witness :
  on_input pinhole_view_T translation_extrinsic init
    (input "obstacles_bbox" (ints [0; 10; 0; 10; 90; 1]%Z))
  = Return CONTINUE init [].
Proof.
  apply (proj1 (bbox_before_ready_is_ignored pinhole_view_T
                  translation_extrinsic init
                  (input "obstacles_bbox" (ints [0; 10; 0; 10; 90; 1]%Z))
                  eq_refl (or_introl eq_refl))).
Defined.

Lemma localization_does_not_modify_held_state_witness :
  fusion_state
    (state_of (on_input pinhole_view_T translation_extrinsic one_point_ahead
                 (input "obstacles_bbox" (ints [0; 10; 0; 10; 90; 1]%Z))))
  = fusion_state one_point_ahead.
Proof.
  apply (proj1 (localization_does_not_modify_held_state pinhole_view_T
                  translation_extrinsic one_point_ahead
                  (input "obstacles_bbox" (ints [0; 10; 0; 10; 90; 1]%Z))
                  (or_intror eq_refl))).
Defined.

Lemma ground_partition_is_always_empty_witness :
  (exists m, ground_point_cloud one_point_ahead = NdArray (Empty3 m))
  /\ len len_ndarray (ground_point_cloud one_point_ahead) = 0.
Proof.
  pose proof (ground_partition_is_always_empty pinhole_view_T
                translation_extrinsic) as (Hevent & Hreach).
  split.
  - apply (Hevent init (input "lidar_pc" (floats [10; 0; 0]%Q))
                  CONTINUE
                  (state_of (on_input pinhole_view_T translation_extrinsic init
                               (input "lidar_pc" (floats [10; 0; 0]%Q))))
                  []).
    + reflexivity.
    + vm_compute. reflexivity.
  - apply Hreach.
    apply (reachable_step pinhole_view_T translation_extrinsic _
             (input "position" (floats [1; 2; 3; 0; 0; 0]%Q))).
    apply (reachable_step pinhole_view_T translation_extrinsic _
             (input "lidar_pc" (floats [10; 0; 0]%Q))).
    apply reachable_init.
Defined.

(** [get_predictions] pairs by position: of two boxes and one location, the
    location goes with the first box, whichever box it was found for. *)
Lemma get_predictions_by_position (first second : list Z) (location : vector) :
  get_predictions [first; second] [location]
  = [location ++ map inject_Z (last2 first)].
Proof. reflexivity. Qed.

(** C1.  A fresh operator is sent a point cloud with one point, ten metres
    ahead, a pose at (1, 2, 3) and then two bounding boxes: the first,
    (0, 10, 0, 10) with confidence 90 and label 1, contains no projected
    point; the second, (900, 1000, 500, 600) with confidence 80 and label
    2, contains the pixel (960, 540) of the point.  One row is sent: the
    world location (1, 2, 13) found for the second box, followed by the
    confidence and label 90, 1 of the first. *)
Theorem row_carries_fields_of_another_box :
  let boxes := [0; 10; 0; 10; 90; 1; 900; 1000; 500; 600; 80; 2]%Z in
  localizable one_point_ahead [0; 10; 0; 10; 90; 1]%Z = false
  /\ localizable one_point_ahead [900; 1000; 500; 600; 80; 2]%Z = true
  /\ map data
        (sent_of (on_input pinhole_view_T translation_extrinsic one_point_ahead
                    (input "obstacles_bbox" (ints boxes))))
     = [[1; 2; 13; 90; 1]%Q].
Proof. repeat split; vm_compute; reflexivity. Qed.

(** C4, the claim as stated fails.  The operator has handled a pose and a
    point cloud whose only point lies behind the sensor, so the held cloud
    is an array without rows.  A bounding-box event then has no localizable
    box, and the handler returns without sending an [obstacles] buffer. *)
Lemma bbox_with_empty_cloud_sends_nothing :
  let ev := input "obstacles_bbox" (ints [0; 1920; 0; 1080; 90; 1]%Z) in
  point_cloud nothing_ahead = NdArray []
  /\ position nothing_ahead = NdArray [0; 0; 0; 0; 0; 0]%Q
  /\ extrinsic_matrix nothing_ahead <> None
  /\ np.reshape 6 (view_int32 (value ev)) = Ok [[0; 1920; 0; 1080; 90; 1]%Z]
  /\ filter (localizable nothing_ahead) [[0; 1920; 0; 1080; 90; 1]%Z] = []
  /\ on_input pinhole_view_T translation_extrinsic nothing_ahead ev
     = Return CONTINUE nothing_ahead []
  /\ sent_of (on_input pinhole_view_T translation_extrinsic nothing_ahead ev)
     <> [ {| output_id := "obstacles"; data := []; output_metadata := "" |} ].
Proof.
  repeat split; try (vm_compute; reflexivity); vm_compute; discriminate.
Qed.

(* ================================================================== *)
(** ** More about the numpy model *)

Lemma Qltb_lt (x y : Q) : np.Qltb x y = true <-> (x < y)%Q.
Proof.
  unfold np.Qltb. rewrite negb_true_iff. split.
  - apply Qle_bool_false.
  - intros H. destruct (Qle_bool y x) eqn:E; [|reflexivity].
    apply Qle_bool_iff in E. lra.
Qed.

Lemma Qltb_ge (x y : Q) : np.Qltb x y = false <-> (y <= x)%Q.
Proof.
  unfold np.Qltb. rewrite negb_false_iff. apply Qle_bool_iff.
Qed.

Lemma chunks_concat {A : Type} (c : nat) (rows : list (list A)) :
  Forall (fun r => length r = c) rows ->
  np.chunks c (length rows) (concat rows) = rows.
Proof.
  induction 1 as [|r rows Hr _ IH]; simpl; [reflexivity|].
  rewrite firstn_app, skipn_app, Hr, Nat.sub_diag. simpl.
  rewrite firstn_all2, skipn_all2 by lia.
  rewrite app_nil_r. simpl. now rewrite IH.
Qed.

(** Flattening rows of [c] values and reshaping to [c] columns gives the
    rows back. *)
Lemma reshape_concat {A : Type} (c : nat) (rows : list (list A)) :
  c <> 0 -> Forall (fun r => length r = c) rows ->
  np.reshape c (concat rows) = Ok rows.
Proof.
  intros Hc Hrows. unfold np.reshape.
  assert (Hlen : length (concat rows) = length rows * c).
  { clear Hc. induction Hrows as [|r rows Hr _ IH]; simpl; [reflexivity|].
    rewrite length_app, IH, Hr. lia. }
  rewrite Hlen, Nat.Div0.mod_mul, Nat.div_mul by exact Hc.
  simpl. now rewrite chunks_concat.
Qed.

Lemma reshape_Err {A : Type} (c : nat) (l : list A) :
  length l mod c <> 0 -> np.reshape c l = Err ValueError.
Proof.
  intros H. unfold np.reshape.
  now destruct (Nat.eqb_spec (length l mod c) 0).
Qed.

(* ================================================================== *)
(** ** [carla_source_node]: steering, trace context, LiDAR frames *)

(** X1.  [radians_to_steer] clamps the product of the gain and the angle to
    [-1, 1]: the result is the product itself when that lies in [-1, 1], 1
    when it is above and -1 when it is below; it always lies in [-1, 1], as
    the docstring says, and turning the angle round turns the steer
    round. *)
Theorem radians_to_steer_clamps :
  forall rad steer_gain : Q,
    let steer := carla_source_node.radians_to_steer rad steer_gain in
    ((steer = steer_gain * rad /\ -(1) <= steer_gain * rad <= 1)
     \/ (steer = 1 /\ 1 < steer_gain * rad)
     \/ (steer = -(1) /\ steer_gain * rad < -(1)))%Q
    /\ (-(1) <= steer <= 1)%Q
    /\ (carla_source_node.radians_to_steer (- rad) steer_gain == - steer)%Q.
Proof.
  intros rad gain. unfold carla_source_node.radians_to_steer. cbv zeta.
  assert (Hneg : (gain * - rad == - (gain * rad))%Q) by ring.
  destruct (np.Qltb 0 (gain * rad)) eqn:E0;
    destruct (np.Qltb 1 (gain * rad)) eqn:E1;
    destruct (np.Qltb (gain * rad) (-(1))) eqn:E2;
    destruct (np.Qltb 0 (gain * - rad)) eqn:F0;
    destruct (np.Qltb 1 (gain * - rad)) eqn:F1;
    destruct (np.Qltb (gain * - rad) (-(1))) eqn:F2;
    repeat match goal with
           | H : np.Qltb _ _ = true |- _ => apply Qltb_lt in H
           | H : np.Qltb _ _ = false |- _ => apply Qltb_ge in H
           end;
    try (exfalso; lra);
    (split; [|split; [lra|lra]]);
    first [ left; split; [reflexivity|lra]
          | right; left; split; [reflexivity|lra]
          | right; right; split; [reflexivity|lra] ].
Qed.

Lemma string_append_assoc (a b c : string) :
  (a ++ (b ++ c))%string = ((a ++ b) ++ c)%string.
Proof. induction a as [|x a IH]; simpl; [reflexivity|now rewrite IH]. Qed.

(** X2.  [serialize_context] writes the items one after the other: the
    text of a context made of two parts is the text of the first followed
    by the text of the second, and the empty context gives the empty
    text. *)
Theorem serialize_context_app :
  forall c1 c2 : list (string * string),
    carla_source_node.serialize_context (c1 ++ c2)
    = (carla_source_node.serialize_context c1
       ++ carla_source_node.serialize_context c2)%string
    /\ carla_source_node.serialize_context [] = "".
Proof.
  intros c1 c2. split; [|reflexivity].
  induction c1 as [|[key value] c1 IH]; [reflexivity|].
  cbn [carla_source_node.serialize_context app].
  rewrite IH. now rewrite !string_append_assoc.
Qed.

(** X3.  A LiDAR frame of n records (x, y, z, intensity) becomes a buffer
    that the operator reshapes to n points (x, y, z), the records without
    their intensity, in order: the reshape of the point-cloud handler
    cannot fail on a buffer the source built. *)
Theorem lidar_frame_reaches_operator :
  forall (raw_data : list Q) (records : matrix),
    np.reshape 4 raw_data = Ok records ->
    exists lidar_pc,
      carla_source_node.on_lidar_msg raw_data = Ok lidar_pc
      /\ np.reshape 3 lidar_pc = Ok (map (firstn 3) records)
      /\ length lidar_pc = 3 * length records.
Proof.
  intros raw records Hre.
  destruct (reshape_Ok 4 raw records ltac:(lia) Hre) as (Hw & _ & _).
  unfold carla_source_node.on_lidar_msg. rewrite Hre. cbn [bind].
  eexists. split; [reflexivity|].
  assert (H3 : Forall (fun r : list Q => length r = 3)
                      (np.first_cols 3 records)).
  { unfold np.first_cols. rewrite Forall_map. revert Hw.
    apply Forall_impl. intros r Hr. rewrite length_firstn, Hr. reflexivity. }
  split.
  - unfold np.ravel. now rewrite reshape_concat by (lia || assumption).
  - unfold np.ravel. rewrite (length_concat_uniform 3 _ H3).
    unfold np.first_cols. rewrite length_map. lia.
Qed.

Lemma lidar_frame_reaches_operator_witness :
  exists lidar_pc,
    carla_source_node.on_lidar_msg [10; 0; 0; 1; 5; 0; -(2); 1]%Q = Ok lidar_pc
    /\ np.reshape 3 lidar_pc
       = Ok (map (firstn 3) [[10; 0; 0; 1]; [5; 0; -(2); 1]]%Q)
    /\ length lidar_pc = 3 * 2.
Proof.
  apply (lidar_frame_reaches_operator
           [10; 0; 0; 1; 5; 0; -(2); 1]%Q
           [[10; 0; 0; 1]; [5; 0; -(2); 1]]%Q).
  reflexivity.
Defined.

(* ================================================================== *)
(** ** The operator: axes, dispatch, malformed buffers, frames *)

(** X4.  Both axis matrices of the operator are inverted by their
    transposes, and the conversions undo each other in either order: for
    every point P, P through [UNREAL_MATRIX] and back through its inverse
    is P, P through the inverse and then the matrix is P, and likewise P
    through the inverse of [VELODYNE_MATRIX] and then the matrix. *)
Theorem axis_conversions_undo_each_other :
  forall x y z : Q,
    exists inv_velodyne inv_unreal,
      INV_VELODYNE_MATRIX = Ok inv_velodyne
      /\ INV_UNREAL_MATRIX = Ok inv_unreal
      /\ Forall2 (Forall2 Qeq) inv_velodyne (np.T VELODYNE_MATRIX)
      /\ Forall2 (Forall2 Qeq) inv_unreal (np.T UNREAL_MATRIX)
      /\ (exists there back,
            np.dot [[x; y; z]] UNREAL_MATRIX = Ok [there]
            /\ np.dot [there] inv_unreal = Ok [back]
            /\ Forall2 Qeq back [x; y; z])
      /\ (exists there back,
            np.dot [[x; y; z]] inv_unreal = Ok [there]
            /\ np.dot [there] UNREAL_MATRIX = Ok [back]
            /\ Forall2 Qeq back [x; y; z])
      /\ (exists there back,
            np.dot [[x; y; z]] inv_velodyne = Ok [there]
            /\ np.dot [there] VELODYNE_MATRIX = Ok [back]
            /\ Forall2 Qeq back [x; y; z]).
Proof.
  intros x y z. eexists. eexists.
  split; [vm_compute; reflexivity|].
  split; [vm_compute; reflexivity|].
  split; [repeat constructor|].
  split; [repeat constructor|].
  repeat split;
    (eexists; eexists;
     split; [reflexivity|];
     split; [reflexivity|];
     repeat (apply Forall2_cons; [cbn; ring|]); constructor).
Qed.

(** X5.  An event that is not of type [INPUT], whatever its id, and an
    input whose id is none of [lidar_pc], [position], [lanes] and
    [obstacles_bbox] are ignored: the operator returns [CONTINUE], sends
    nothing and stays as it was. *)
Theorem other_events_are_ignored :
  forall (camera_view_T : ndarray -> result ndarray)
         (extrinsic : vector -> result matrix)
         (self : Operator) (ev : dora_event),
    type ev <> "INPUT" \/ known_id (id ev) = false ->
    on_event camera_view_T extrinsic self ev = Return CONTINUE self [].
Proof.
  intros ct ex self ev [Hty | Hid]; unfold on_event.
  - apply String.eqb_neq in Hty. now rewrite Hty.
  - destruct (String.eqb (type ev) "INPUT"); [|reflexivity].
    unfold known_id in Hid. rewrite !orb_false_iff in Hid.
    destruct Hid as (((H1 & H2) & H3) & H4).
    unfold on_input. now rewrite H1, H2, H3, H4.
Qed.

Lemma other_events_are_ignored_witness :
  on_event pinhole_view_T translation_extrinsic one_point_ahead
    {| type := "STOP"; id := "lidar_pc"; value := floats [1; 2]%Q;
       metadata := "" |}
  = Return CONTINUE one_point_ahead []
  /\ on_event pinhole_view_T translation_extrinsic one_point_ahead
       (input "image" (ints [1]%Z))
     = Return CONTINUE one_point_ahead [].
Proof.
  split.
  - apply other_events_are_ignored. left. discriminate.
  - apply other_events_are_ignored. right. reflexivity.
Defined.

(** X6.  A buffer of the wrong length is rejected before anything is
    stored or sent: a point cloud whose float count is not a multiple of
    3, a lane buffer whose integer count is not a multiple of 120 (even on
    a fresh operator), and, once the operator holds a position and a
    non-empty cloud, a bounding-box buffer whose integer count is not a
    multiple of 6 all raise [ValueError] and leave the operator as it
    was. *)
Theorem malformed_buffer_is_rejected :
  forall (camera_view_T : ndarray -> result ndarray)
         (extrinsic : vector -> result matrix)
         (self : Operator) (ev : dora_event),
    (id ev = "lidar_pc" ->
     length (view_float32 (value ev)) mod 3 <> 0 ->
     on_input camera_view_T extrinsic self ev = Raise ValueError self)
    /\ (id ev = "lanes" ->
        length (view_int32 (value ev)) mod 120 <> 0 ->
        on_input camera_view_T extrinsic self ev = Raise ValueError self)
    /\ (id ev = "obstacles_bbox" ->
        len_rows (position self) <> 0 ->
        len_rows (point_cloud self) <> 0 ->
        length (view_int32 (value ev)) mod 6 <> 0 ->
        on_input camera_view_T extrinsic self ev = Raise ValueError self).
Proof.
  intros ct ex self ev. repeat split.
  - intros Hid Hlen. rewrite (on_input_lidar_pc ct ex self ev Hid).
    unfold on_lidar_pc. now rewrite (reshape_Err 3 _ Hlen).
  - intros Hid Hlen. rewrite (on_input_lanes ct ex self ev Hid).
    unfold on_lanes, np.reshape3.
    change (60 * 2) with 120. now rewrite (reshape_Err 120 _ Hlen).
  - intros Hid Hpos Hpc Hlen.
    rewrite (on_input_obstacles_bbox ct ex self ev Hid).
    unfold on_obstacles_bbox.
    apply Nat.eqb_neq in Hpos, Hpc. rewrite Hpos, Hpc. simpl orb. cbv iota.
    now rewrite (reshape_Err 6 _ Hlen).
Qed.

Lemma malformed_buffer_is_rejected_witness :
  on_input pinhole_view_T translation_extrinsic one_point_ahead
    (input "lidar_pc" (floats [1; 2; 3; 4]%Q))
  = Raise ValueError one_point_ahead
  /\ on_input pinhole_view_T translation_extrinsic init
       (input "lanes" (ints [1; 2; 3]%Z))
     = Raise ValueError init
  /\ on_input pinhole_view_T translation_extrinsic one_point_ahead
       (input "obstacles_bbox" (ints [0; 10; 0; 10; 90]%Z))
     = Raise ValueError one_point_ahead.
Proof.
  pose proof (malformed_buffer_is_rejected pinhole_view_T
                translation_extrinsic) as H.
  split; [|split].
  - apply (proj1 (H one_point_ahead
                    (input "lidar_pc" (floats [1; 2; 3; 4]%Q)))).
    + reflexivity.
    + simpl. discriminate.
  - apply (proj1 (proj2 (H init (input "lanes" (ints [1; 2; 3]%Z))))).
    + reflexivity.
    + simpl. discriminate.
  - apply (proj2 (proj2 (H one_point_ahead
                           (input "obstacles_bbox"
                              (ints [0; 10; 0; 10; 90]%Z))))).
    + reflexivity.
    + vm_compute. discriminate.
    + vm_compute. discriminate.
    + simpl. discriminate.
Defined.

(** X7.  The two update handlers keep to their own stream and send
    nothing.  A pose event, whether the conversion to an extrinsic matrix
    succeeds or raises, stores the floats of the event as the position and
    leaves the held cloud, its camera view, the ground partition, its
    camera view and the stored boxes unchanged; a point-cloud event,
    whether it returns or raises, leaves the position, the extrinsic matrix
    and the stored boxes unchanged. *)
Theorem updates_keep_to_their_stream :
  forall (camera_view_T : ndarray -> result ndarray)
         (extrinsic : vector -> result matrix)
         (self : Operator) (ev : dora_event),
    let after := on_input camera_view_T extrinsic self ev in
    (id ev = "position" ->
     sent_of after = []
     /\ position (state_of after) = NdArray (view_float32 (value ev))
     /\ point_cloud (state_of after) = point_cloud self
     /\ camera_point_cloud (state_of after) = camera_point_cloud self
     /\ ground_point_cloud (state_of after) = ground_point_cloud self
     /\ camera_ground_point_cloud (state_of after)
        = camera_ground_point_cloud self
     /\ obstacles_bbox (state_of after) = obstacles_bbox self)
    /\ (id ev = "lidar_pc" ->
        sent_of after = []
        /\ position (state_of after) = position self
        /\ extrinsic_matrix (state_of after) = extrinsic_matrix self
        /\ obstacles_bbox (state_of after) = obstacles_bbox self).
Proof.
  intros ct ex self ev after. subst after. split; intros Hid.
  - rewrite (on_input_position ct ex self ev Hid). unfold on_position.
    destruct (ex _); simpl; repeat split; reflexivity.
  - rewrite (on_input_lidar_pc ct ex self ev Hid). unfold on_lidar_pc.
    repeat match goal with
           | |- context [match ?r with Ok _ => _ | Err _ => _ end] =>
               destruct r; simpl; auto
           end.
Qed.

Lemma updates_keep_to_their_stream_witness :
  point_cloud
    (state_of (on_input pinhole_view_T translation_extrinsic one_point_ahead
                 (input "position" (floats [4; 5; 6; 0; 0; 0]%Q))))
  = point_cloud one_point_ahead
  /\ position
       (state_of (on_input pinhole_view_T translation_extrinsic
                    one_point_ahead (input "lidar_pc" (floats [7; 0; 0]%Q))))
     = position one_point_ahead.
Proof.
  split.
  - apply (proj1 (updates_keep_to_their_stream pinhole_view_T
                    translation_extrinsic one_point_ahead
                    (input "position" (floats [4; 5; 6; 0; 0; 0]%Q)))).
    reflexivity.
  - apply (proj2 (updates_keep_to_their_stream pinhole_view_T
                    translation_extrinsic one_point_ahead
                    (input "lidar_pc" (floats [7; 0; 0]%Q)))).
    reflexivity.
Defined.

(* ================================================================== *)
(** ** The operator: what a bounding box is located at *)

Lemma StronglySorted_split {A : Type} (R : A -> A -> Prop) (l1 l2 : list A)
    (a : A) :
  StronglySorted R (l1 ++ a :: l2) ->
  Forall (fun x => R x a) l1 /\ Forall (R a) l2.
Proof.
  induction l1 as [|x l1 IH]; simpl; intros H;
    inversion H as [|? ? Hs Hall]; subst.
  - split; [constructor|assumption].
  - destruct (IH Hs) as (H1 & H2). split; [|assumption].
    constructor; [|assumption].
    rewrite Forall_forall in Hall. apply Hall.
    apply in_or_app. right. now left.
Qed.

Lemma closest_point_nonempty (z_points : matrix) (chosen : vector) :
  closest_point z_points = Ok chosen -> z_points <> [] /\ In chosen z_points.
Proof.
  unfold closest_point. destruct (np.col 2 z_points); [|discriminate].
  cbn [bind].
  destruct (nth_error _ _) as [i|]; [|discriminate].
  destruct (nth_error z_points i) as [p|] eqn:Ep; [|discriminate].
  intros [= <-]. split.
  - intros ->. now destruct i.
  - now apply nth_error_In in Ep.
Qed.

(** X8.  The point [closest_point] returns splits the selection at the
    first quartile: the other points fall into [len / 4] points that are no
    deeper than it and the remaining ones that are no nearer.  With fewer
    than four points in the box it is therefore a nearest point. *)
Theorem closest_point_splits_at_first_quartile :
  forall (z_points : matrix) (chosen : vector),
    Forall (fun p => length p = 3) z_points ->
    closest_point z_points = Ok chosen ->
    exists near far,
      Permutation (near ++ chosen :: far) z_points
      /\ length near = length z_points / 4
      /\ Forall (fun p => by_depth p chosen) near
      /\ Forall (by_depth chosen) far
      /\ (length z_points < 4 -> Forall (by_depth chosen) z_points).
Proof.
  intros z_points chosen Hw Hc.
  destruct (closest_point_nonempty z_points chosen Hc) as (Hne & _).
  destruct (closest_point_rank z_points Hne Hw) as (c & Hc' & Hrank).
  rewrite Hc in Hc'. injection Hc' as <-.
  destruct (nth_error_split _ _ Hrank) as (near & far & Hsplit & Hlen).
  assert (Hss : StronglySorted by_depth (near ++ chosen :: far)).
  { rewrite <- Hsplit. apply Sorted_StronglySorted.
    - intros a b c Hab Hbc. unfold by_depth in *. lra.
    - apply ascending_sorted. }
  destruct (StronglySorted_split by_depth near far chosen Hss) as (Hn & Hf).
  assert (HP : Permutation (near ++ chosen :: far) z_points).
  { rewrite <- Hsplit. apply ascending_perm. }
  exists near, far. repeat split; try assumption.
  intros H4.
  assert (Hnil : near = []).
  { apply length_zero_iff_nil. rewrite Hlen. now apply Nat.div_small. }
  subst near. simpl in HP.
  apply (Permutation_Forall HP). constructor; [|assumption].
  unfold by_depth. lra.
Qed.

Lemma closest_point_splits_at_first_quartile_witness :
  exists near far,
    Permutation (near ++ [0; 0; 2]%Q :: far)
                [[0; 0; 8]; [0; 0; 2]; [0; 0; 5]]%Q
    /\ length near = 3 / 4.
Proof.
  destruct (closest_point_splits_at_first_quartile
              [[0; 0; 8]; [0; 0; 2]; [0; 0; 5]]%Q [0; 0; 2]%Q)
    as (near & far & HP & Hlen & _).
  - repeat constructor.
  - reflexivity.
  - exists near, far. split; assumption.
Defined.

(** X9.  The boxes are located one by one, in order: locating a list of
    boxes followed by another gives the locations of the first followed by
    the locations of the second, and fails where either fails. *)
Theorem locate_app :
  forall (cloud : matrix) (camera : held ndarray) (b1 b2 : list (list Z)),
    locate cloud camera (b1 ++ b2)
    = (l1 <- locate cloud camera b1 ;;
       l2 <- locate cloud camera b2 ;;
       Ok (l1 ++ l2)).
Proof.
  intros cloud camera b1 b2.
  induction b1 as [|bb b1 IH]; simpl.
  - now destruct (locate cloud camera b2).
  - destruct (points_in_box cloud camera bb) as [z|]; [|reflexivity].
    cbn [bind]. destruct (0 <? length z); [|exact IH].
    destruct (closest_point z); [|reflexivity]. cbn [bind].
    rewrite IH.
    destruct (locate cloud camera b1); [|reflexivity]. cbn [bind].
    now destruct (locate cloud camera b2).
Qed.

Lemma select_nth {A : Type} (a : list A) (mask : list bool) (x : A) :
  In x (map fst (filter snd (combine a mask))) ->
  exists i, nth_error a i = Some x /\ nth_error mask i = Some true.
Proof.
  revert mask; induction a as [|y a IH]; intros [|b mask] H; simpl in H;
    try contradiction.
  destruct b; simpl in H.
  - destruct H as [<- | H]; [now exists 0|].
    destruct (IH mask H) as (i & H1 & H2). now exists (S i).
  - destruct (IH mask H) as (i & H1 & H2). now exists (S i).
Qed.

Lemma combine_map_same {A B C : Type} (g : A -> B) (h : A -> C) (l : list A) :
  combine (map g l) (map h l) = map (fun r => (g r, h r)) l.
Proof. induction l as [|x l IH]; simpl; [reflexivity|now rewrite IH]. Qed.

Lemma nth_error_map_Some {A B : Type} (f : A -> B) (l : list A) (i : nat)
    (b : B) :
  nth_error (map f l) i = Some b ->
  exists a, nth_error l i = Some a /\ b = f a.
Proof.
  rewrite nth_error_map. destruct (nth_error l i) as [a|]; simpl;
    [|discriminate].
  intros [= <-]. now exists a.
Qed.

(** X10.  The point a bounding box is located at is a point of the held
    cloud whose row of the camera view has its pixel strictly inside the
    box: the location is a measured point, never an interpolation and never
    a point projecting onto the border or outside. *)
Theorem located_point_projects_inside_the_box :
  forall (cloud camera : matrix) (bb : list Z) (z_points : matrix)
         (location : vector),
    length camera = length cloud ->
    Forall (fun r => length r = 3) camera ->
    length bb = 6 ->
    points_in_box cloud (NdArray (Arr2 camera)) bb = Ok z_points ->
    closest_point z_points = Ok location ->
    exists i r,
      nth_error cloud i = Some location
      /\ nth_error camera i = Some r
      /\ pixel_inside bb r.
Proof.
  intros cloud camera bb z loc Hlen Hcam Hbb Hz Hc.
  destruct (closest_point_nonempty z loc Hc) as (_ & Hin).
  destruct (length_6 bb Hbb) as (min_x & max_x & min_y & max_y & c & l & ->).
  unfold points_in_box, column in Hz.
  rewrite (col_Ok 0 3 camera Hcam) in Hz by lia.
  rewrite (col_Ok 1 3 camera Hcam) in Hz by lia.
  cbn [bind] in Hz.
  rewrite take_where in Hz
    by (unfold inside; rewrite length_map, length_combine, !length_map; lia).
  injection Hz as <-.
  apply select_nth in Hin as (i & Hi & Hmask).
  unfold inside in Hmask. rewrite combine_map_same in Hmask.
  apply nth_error_map_Some in Hmask as (uv & Huv & Htrue).
  apply nth_error_map_Some in Huv as (r & Hr & ->).
  exists i, r. split; [exact Hi|]. split; [exact Hr|].
  symmetry in Htrue. simpl in Htrue.
  rewrite !andb_true_iff in Htrue.
  destruct Htrue as (((H1 & H2) & H3) & H4).
  apply Qltb_lt in H1, H2, H3, H4.
  unfold pixel_inside. simpl. repeat split; assumption.
Qed.

Lemma located_point_projects_inside_the_box_witness :
  exists i r,
    nth_error [[0; 0; 10]; [3; 0; 10]]%Q i = Some [0; 0; 10]%Q
    /\ nth_error [[960; 540; 10]; [1248; 540; 10]]%Q i = Some r
    /\ pixel_inside [900; 1000; 500; 600; 80; 2]%Z r.
Proof.
  apply (located_point_projects_inside_the_box
           [[0; 0; 10]; [3; 0; 10]]%Q
           [[960; 540; 10]; [1248; 540; 10]]%Q
           [900; 1000; 500; 600; 80; 2]%Z
           [[0; 0; 10]]%Q [0; 0; 10]%Q).
  - reflexivity.
  - repeat constructor.
  - reflexivity.
  - reflexivity.
  - reflexivity.
Defined.

(* ================================================================== *)
(** ** The operator: the rows of the [obstacles] buffer *)

(** The bounding-box handler once the guard has passed and the boxes have
    been located. *)
Lemma on_obstacles_bbox_located
    (camera_view_T : ndarray -> result ndarray)
    (extrinsic : vector -> result matrix)
    (self : Operator) (ev : dora_event) (cloud locations : matrix)
    (boxes : list (list Z)) :
  id ev = "obstacles_bbox" ->
  len_rows (position self) <> 0 ->
  cloud <> [] ->
  point_cloud self = NdArray cloud ->
  np.reshape 6 (view_int32 (value ev)) = Ok boxes ->
  locate cloud (camera_point_cloud self) boxes = Ok locations ->
  on_input camera_view_T extrinsic self ev
  = if 0 <? length locations
    then match to_world (extrinsic_matrix self) locations with
         | Ok w =>
             Return CONTINUE (set_obstacles_bbox self boxes)
               [ {| output_id := "obstacles";
                    data := np.ravel (get_predictions boxes w);
                    output_metadata := metadata ev |} ]
         | Err e => Raise e (set_obstacles_bbox self boxes)
         end
    else Return CONTINUE (set_obstacles_bbox self boxes)
           [ {| output_id := "obstacles"; data := [];
                output_metadata := metadata ev |} ].
Proof.
  intros Hid Hpos Hne Hpc Hre Hloc.
  rewrite (on_input_obstacles_bbox _ _ self ev Hid). unfold on_obstacles_bbox.
  replace (len_rows (position self) =? 0) with false
    by (symmetry; now apply Nat.eqb_neq).
  replace (len_rows (point_cloud self) =? 0) with false.
  2:{ symmetry. apply Nat.eqb_neq. rewrite Hpc. simpl.
      destruct cloud; [congruence|simpl; lia]. }
  simpl orb. cbv iota. rewrite Hre.
  simpl point_cloud. rewrite Hpc.
  simpl camera_point_cloud. rewrite Hloc.
  reflexivity.
Qed.

(** On an indexed cloud every located point has three coordinates. *)
Lemma located_points_width (self : Operator) (cloud camera locations : matrix)
    (boxes : list (list Z)) :
  indexed self cloud camera ->
  Forall (fun bb => length bb = 6) boxes ->
  locate cloud (camera_point_cloud self) boxes = Ok locations ->
  Forall (fun p => length p = 3) locations.
Proof.
  intros (Hpc & Hcam & Hlen & Hwc & Hwp) Hboxes. rewrite Hcam.
  revert locations.
  induction Hboxes as [|bb boxes Hbb _ IH]; intros locations Hloc.
  - injection Hloc as <-. constructor.
  - simpl in Hloc.
    destruct (points_in_box_Ok cloud camera bb Hlen Hwc Hwp Hbb)
      as (z & Hz & Hzw).
    rewrite Hz in Hloc. cbn [bind] in Hloc.
    destruct (0 <? length z); [|now apply IH].
    destruct (closest_point z) as [c|] eqn:Ec; [|discriminate].
    cbn [bind] in Hloc.
    destruct (locate cloud (NdArray (Arr2 camera)) boxes) as [ls|];
      [|discriminate].
    injection Hloc as <-. constructor; [|now apply IH].
    destruct (closest_point_nonempty z c Ec) as (_ & Hin).
    rewrite Forall_forall in Hzw. now apply Hzw.
Qed.

Lemma last2_of_six {A : Type} (l : list A) :
  length l = 6 -> length (last2 l) = 2.
Proof. intros H. unfold last2. rewrite length_skipn, H. reflexivity. Qed.

(** X11.  Once the operator holds a position, a non-empty indexed cloud and
    a 4 x 4 extrinsic matrix, a bounding-box event with a well-formed
    buffer never raises: the handler stores the boxes, returns [CONTINUE]
    and sends exactly one [obstacles] buffer, made of one row of five
    floats per localizable box. *)
Theorem ready_bbox_event_sends_rows_of_five :
  forall (camera_view_T : ndarray -> result ndarray)
         (extrinsic : vector -> result matrix)
         (self : Operator) (ev : dora_event) (cloud camera e : matrix)
         (boxes : list (list Z)),
    id ev = "obstacles_bbox" ->
    len_rows (position self) <> 0 ->
    cloud <> [] ->
    indexed self cloud camera ->
    np.reshape 6 (view_int32 (value ev)) = Ok boxes ->
    extrinsic_matrix self = Some e ->
    square 4 e ->
    exists rows,
      on_input camera_view_T extrinsic self ev
      = Return CONTINUE (set_obstacles_bbox self boxes)
          [ {| output_id := "obstacles"; data := np.ravel rows;
               output_metadata := metadata ev |} ]
      /\ length rows = length (filter (localizable self) boxes)
      /\ Forall (fun row => length row = 5) rows
      /\ length (np.ravel rows)
         = 5 * length (filter (localizable self) boxes).
Proof.
  intros ct ex self ev cloud camera e boxes Hid Hpos Hne Hix Hre He Hsq.
  destruct (reshape_Ok 6 _ boxes ltac:(lia) Hre) as (Hw & _ & _).
  destruct (locate_localizable self cloud camera boxes Hix Hw)
    as (locations & Hloc & Hall).
  pose proof (located_points_width self cloud camera locations boxes
                Hix Hw Hloc) as Hl3.
  pose proof (on_obstacles_bbox_located ct ex self ev cloud locations boxes
                Hid Hpos Hne (proj1 Hix) Hre Hloc) as Hrun.
  assert (Hrows : forall rows : matrix,
             length rows = length (filter (localizable self) boxes) ->
             Forall (fun row => length row = 5) rows ->
             length (np.ravel rows)
             = 5 * length (filter (localizable self) boxes)).
  { intros rows Hn H5. unfold np.ravel.
    rewrite (length_concat_uniform 5 rows H5). lia. }
  destruct locations as [|l0 locations].
  - exists [].
    assert (Hnil : filter (localizable self) boxes = [])
      by (inversion Hall; reflexivity).
    split; [exact Hrun|]. rewrite Hnil. repeat split. constructor.
  - change (0 <? length (l0 :: locations)) with true in Hrun.
    cbv iota in Hrun. rewrite He in Hrun.
    destruct (to_world_shape e (l0 :: locations) Hsq Hl3)
      as (w & Hw' & Hwl & Hw3).
    rewrite Hw' in Hrun.
    assert (Hn : length (get_predictions boxes w)
                 = length (filter (localizable self) boxes)).
    { unfold get_predictions. rewrite length_map, length_combine, Hwl.
      pose proof (Forall2_filter_length _ _ _ _ Hall).
      rewrite <- (Forall2_length Hall). lia. }
    assert (H5 : Forall (fun row => length row = 5)
                        (get_predictions boxes w)).
    { unfold get_predictions. rewrite Forall_map. apply Forall_forall.
      intros (bb & p) Hin. simpl.
      rewrite length_app, length_map.
      rewrite Forall_forall in Hw, Hw3.
      rewrite (Hw3 p (in_combine_r _ _ _ _ Hin)).
      now rewrite (last2_of_six bb (Hw bb (in_combine_l _ _ _ _ Hin))). }
    exists (get_predictions boxes w).
    split; [exact Hrun|]. split; [exact Hn|]. split; [exact H5|].
    now apply Hrows.
Qed.

Lemma ready_bbox_event_sends_rows_of_five_witness :
  exists rows,
    on_input pinhole_view_T translation_extrinsic one_point_ahead
      (input "obstacles_bbox"
         (ints [0; 10; 0; 10; 90; 1; 900; 1000; 500; 600; 80; 2]%Z))
    = Return CONTINUE
        (set_obstacles_bbox one_point_ahead
           [[0; 10; 0; 10; 90; 1]; [900; 1000; 500; 600; 80; 2]]%Z)
        [ {| output_id := "obstacles"; data := np.ravel rows;
             output_metadata := "" |} ]
    /\ Forall (fun row => length row = 5) rows.
Proof.
  destruct (ready_bbox_event_sends_rows_of_five pinhole_view_T
              translation_extrinsic one_point_ahead
              (input "obstacles_bbox"
                 (ints [0; 10; 0; 10; 90; 1; 900; 1000; 500; 600; 80; 2]%Z))
              [[0; 0; 10]]%Q [[9600 # 10; 5400 # 10; 10]]%Q
              [[1; 0; 0; 1]; [0; 1; 0; 2]; [0; 0; 1; 3]; [0; 0; 0; 1]]%Q
              [[0; 10; 0; 10; 90; 1]; [900; 1000; 500; 600; 80; 2]]%Z)
    as (rows & Hrun & _ & H5 & _).
  - reflexivity.
  - vm_compute. discriminate.
  - discriminate.
  - repeat split; try (vm_compute; reflexivity); repeat constructor.
  - reflexivity.
  - vm_compute. reflexivity.
  - split; [reflexivity|repeat constructor].
  - exists rows. split; assumption.
Defined.

(** The extrinsic matrix is applied to each point on its own. *)
Lemma to_world_rows (e : option matrix) (a w : matrix) :
  to_world e a = Ok w ->
  Forall2 (fun p q => to_world e [p] = Ok [q]) a w.
Proof.
  unfold to_world. destruct e as [e|]; [|discriminate].
  unfold np.dot, np.hstack_ones, np.first_cols.
  destruct (forallb _ (map _ a)) eqn:Ea; [|discriminate].
  cbn [bind]. intros [= <-].
  rewrite forallb_forall in Ea.
  rewrite !map_map.
  induction a as [|p a IH]; cbn [map]; constructor.
  - cbn [forallb]. rewrite (Ea (p ++ [1%Q])) by (now left).
    reflexivity.
  - apply IH. intros r Hr. apply Ea. now right.
Qed.

Lemma rows_by_position {R1 : vector -> list Z -> Prop}
    {R2 : vector -> vector -> Prop}
    (locations w : matrix) (boxes : list (list Z)) :
  Forall2 R1 locations boxes -> Forall2 R2 locations w ->
  Forall2
    (fun bb row =>
       exists location world,
         R1 location bb /\ R2 location world
         /\ row = world ++ map inject_Z (last2 bb))
    boxes (get_predictions boxes w).
Proof.
  intros H1; revert w.
  induction H1 as [|loc bb locations boxes Hlb _ IH]; intros w H2;
    inversion H2; subst.
  - constructor.
  - unfold get_predictions. simpl. constructor.
    + eexists; eexists. repeat split; eassumption.
    + apply IH. assumption.
Qed.

(** X12.  When every box of a bounding-box event is localizable (operator
    as in X11), the rows are in the order of the boxes and each row is the
    world location of the first-quartile point of its own box followed by
    the confidence and label of that same box. *)
Theorem all_boxes_localizable_rows_are_aligned :
  forall (camera_view_T : ndarray -> result ndarray)
         (extrinsic : vector -> result matrix)
         (self : Operator) (ev : dora_event) (cloud camera e : matrix)
         (boxes : list (list Z)),
    id ev = "obstacles_bbox" ->
    len_rows (position self) <> 0 ->
    cloud <> [] ->
    indexed self cloud camera ->
    np.reshape 6 (view_int32 (value ev)) = Ok boxes ->
    extrinsic_matrix self = Some e ->
    square 4 e ->
    forallb (localizable self) boxes = true ->
    exists rows,
      sent_of (on_input camera_view_T extrinsic self ev)
      = [ {| output_id := "obstacles"; data := np.ravel rows;
             output_metadata := metadata ev |} ]
      /\ Forall2
           (fun bb row =>
              exists location world,
                (exists z_points,
                    points_in_box cloud (camera_point_cloud self) bb
                    = Ok z_points
                    /\ z_points <> []
                    /\ closest_point z_points = Ok location)
                /\ to_world (Some e) [location] = Ok [world]
                /\ row = world ++ map inject_Z (last2 bb))
           boxes rows.
Proof.
  intros ct ex self ev cloud camera e boxes
         Hid Hpos Hne Hix Hre He Hsq Hall.
  destruct (reshape_Ok 6 _ boxes ltac:(lia) Hre) as (Hw & _ & _).
  destruct (locate_localizable self cloud camera boxes Hix Hw)
    as (locations & Hloc & H2).
  assert (Hfilter : filter (localizable self) boxes = boxes).
  { clear - Hall. induction boxes as [|bb boxes IH]; [reflexivity|].
    simpl in *. apply andb_true_iff in Hall as (Hb & Hrest).
    rewrite Hb. f_equal. now apply IH. }
  rewrite Hfilter in H2.
  pose proof (located_points_width self cloud camera locations boxes
                Hix Hw Hloc) as Hl3.
  pose proof (on_obstacles_bbox_located ct ex self ev cloud locations boxes
                Hid Hpos Hne (proj1 Hix) Hre Hloc) as Hrun.
  destruct (to_world_shape e locations Hsq Hl3) as (w & Hw' & _ & _).
  rewrite Hrun, He, Hw'.
  exists (get_predictions boxes w). split.
  - destruct locations as [|l0 locations]; [|reflexivity].
    inversion H2; subst. unfold to_world, np.dot in Hw'. simpl in Hw'.
    injection Hw' as <-. reflexivity.
  - apply (rows_by_position locations w boxes H2).
    now apply to_world_rows.
Qed.

Lemma all_boxes_localizable_rows_are_aligned_witness :
  exists rows,
    sent_of (on_input pinhole_view_T translation_extrinsic one_point_ahead
               (input "obstacles_bbox"
                  (ints [900; 1000; 500; 600; 80; 2]%Z)))
    = [ {| output_id := "obstacles"; data := np.ravel rows;
           output_metadata := "" |} ]
    /\ length rows = 1.
Proof.
  destruct (all_boxes_localizable_rows_are_aligned pinhole_view_T
              translation_extrinsic one_point_ahead
              (input "obstacles_bbox" (ints [900; 1000; 500; 600; 80; 2]%Z))
              [[0; 0; 10]]%Q [[9600 # 10; 5400 # 10; 10]]%Q
              [[1; 0; 0; 1]; [0; 1; 0; 2]; [0; 0; 1; 3]; [0; 0; 0; 1]]%Q
              [[900; 1000; 500; 600; 80; 2]]%Z)
    as (rows & Hsent & Hrows).
  - reflexivity.
  - vm_compute. discriminate.
  - discriminate.
  - repeat split; try (vm_compute; reflexivity); repeat constructor.
  - reflexivity.
  - vm_compute. reflexivity.
  - split; [reflexivity|repeat constructor].
  - vm_compute. reflexivity.
  - exists rows. split; [exact Hsent|].
    symmetry. exact (Forall2_length Hrows).
Defined.

(* ================================================================== *)
(** ** The operator: boxes without points *)

(** The rows of [get_predictions] start with the locations, in order. *)
Lemma get_predictions_rows (boxes : list (list Z)) :
  forall world : matrix,
    length world <= length boxes ->
    Forall2
      (fun point row =>
         exists bb, In bb boxes /\ row = point ++ map inject_Z (last2 bb))
      world (get_predictions boxes world).
Proof.
  induction boxes as [|bb boxes IH]; intros [|point world] Hlen;
    simpl in Hlen; try lia; try constructor.
  - exists bb. split; [now left|reflexivity].
  - apply Forall2_impl with (2 := IH world ltac:(lia)).
    intros p row (bb' & Hin & Hrow). exists bb'. split; [now right|exact Hrow].
Qed.

Lemma get_predictions_nil (boxes : list (list Z)) :
  get_predictions boxes [] = [].
Proof. unfold get_predictions. now rewrite combine_nil. Qed.

(** C4, as amended.  For every bounding-box event handled while the held
    position and the held point cloud are not empty, the held camera view
    being the pixel index of the held cloud:
    - the loop yields one location per localizable box (a box with at
      least one held point strictly inside it), in the order of the boxes:
      one of the points selected for that box, the one at the first
      quartile of their depths; a box without such a point yields nothing;
    - when no box is localizable the handler returns after sending one
      empty [obstacles] buffer, without raising;
    - whenever the handler returns, it has sent one [obstacles] buffer
      whose rows are [get_predictions boxes world], where [world] holds, in
      order, the world transform of each location and nothing else: there
      are as many rows as localizable boxes, and every row starts with the
      transformed coordinates of a point found inside a box, so a box
      without points has no row, with whatever coordinates;
    - with a 4 x 4 extrinsic matrix the handler does return, and every row
      has five numbers. *)
Theorem empty_selection_contract :
  forall (camera_view_T : ndarray -> result ndarray)
         (extrinsic : vector -> result matrix)
         (self : Operator) (ev : dora_event) (cloud camera : matrix)
         (boxes : list (list Z)),
    id ev = "obstacles_bbox" ->
    len_rows (position self) <> 0 ->
    cloud <> [] ->
    indexed self cloud camera ->
    np.reshape 6 (view_int32 (value ev)) = Ok boxes ->
    exists locations,
      locate cloud (camera_point_cloud self) boxes = Ok locations
      /\ Forall2
           (fun location bb =>
              exists z_points,
                points_in_box cloud (camera_point_cloud self) bb = Ok z_points
                /\ z_points <> []
                /\ closest_point z_points = Ok location
                /\ In location z_points)
           locations (filter (localizable self) boxes)
      /\ (filter (localizable self) boxes = [] ->
          on_input camera_view_T extrinsic self ev
          = Return CONTINUE (set_obstacles_bbox self boxes)
              [ {| output_id := "obstacles"; data := [];
                   output_metadata := metadata ev |} ])
      /\ (forall status self' sent,
            on_input camera_view_T extrinsic self ev
            = Return status self' sent ->
            exists world,
              sent = [ {| output_id := "obstacles";
                          data := np.ravel (get_predictions boxes world);
                          output_metadata := metadata ev |} ]
              /\ Forall2
                   (fun location point =>
                      to_world (extrinsic_matrix self) [location]
                      = Ok [point])
                   locations world
              /\ length (get_predictions boxes world)
                 = length (filter (localizable self) boxes)
              /\ Forall2
                   (fun point row =>
                      exists bb,
                        In bb boxes
                        /\ row = point ++ map inject_Z (last2 bb))
                   world (get_predictions boxes world))
      /\ (forall e : matrix,
            extrinsic_matrix self = Some e ->
            square 4 e ->
            exists world,
              on_input camera_view_T extrinsic self ev
              = Return CONTINUE (set_obstacles_bbox self boxes)
                  [ {| output_id := "obstacles";
                       data := np.ravel (get_predictions boxes world);
                       output_metadata := metadata ev |} ]
              /\ Forall (fun row => length row = 5)
                        (get_predictions boxes world)).
Proof.
  intros ct ex self ev cloud camera boxes Hid Hpos Hne Hix Hre.
  destruct (reshape_Ok 6 _ boxes ltac:(lia) Hre) as (Hw & _ & _).
  destruct (locate_localizable self cloud camera boxes Hix Hw)
    as (locations & Hloc & Hall).
  pose proof (located_points_width self cloud camera locations boxes
                Hix Hw Hloc) as Hl3.
  pose proof (on_obstacles_bbox_located ct ex self ev cloud locations boxes
                Hid Hpos Hne (proj1 Hix) Hre Hloc) as Hrun.
  pose proof (Forall2_length Hall) as Hn.
  pose proof (Forall2_filter_length _ _ _ _ Hall) as Hle.
  exists locations. split; [exact Hloc|]. split.
  { apply Forall2_impl with (2 := Hall).
    intros location bb (z_points & Hz & Hzne & Hc).
    exists z_points. repeat split; try assumption.
    exact (proj2 (closest_point_nonempty z_points location Hc)). }
  split.
  { intros Hnone. rewrite Hnone in Hall. inversion Hall; subst.
    exact Hrun. }
  split.
  - intros status self' sent H. rewrite Hrun in H.
    destruct locations as [|l0 locations].
    + simpl in H. injection H as _ _ <-.
      exists []. rewrite get_predictions_nil.
      repeat split; [constructor|exact Hn|constructor].
    + change (0 <? length (l0 :: locations)) with true in H. cbv iota in H.
      destruct (to_world _ _) as [w|] eqn:Ew; [|discriminate].
      injection H as _ _ <-.
      pose proof (to_world_length _ _ _ Ew) as Hwl.
      exists w. split; [reflexivity|].
      split; [exact (to_world_rows _ _ _ Ew)|].
      split.
      * unfold get_predictions. rewrite length_map, length_combine. lia.
      * apply get_predictions_rows. lia.
  - intros e He Hsq. rewrite He in Hrun.
    destruct (to_world_shape e locations Hsq Hl3) as (w & Hw' & Hwl & Hw3).
    exists w. split.
    + destruct locations as [|l0 locations].
      * unfold to_world, np.dot in Hw'. simpl in Hw'. injection Hw' as <-.
        rewrite get_predictions_nil. exact Hrun.
      * change (0 <? length (l0 :: locations)) with true in Hrun.
        cbv iota in Hrun. now rewrite Hw' in Hrun.
    + unfold get_predictions. rewrite Forall_map. apply Forall_forall.
      intros (bb & p) Hin. simpl.
      rewrite length_app, length_map.
      rewrite Forall_forall in Hw, Hw3.
      rewrite (Hw3 p (in_combine_r _ _ _ _ Hin)).
      now rewrite (last2_of_six bb (Hw bb (in_combine_l _ _ _ _ Hin))).
Qed.

Lemma empty_selection_contract_witness :
  on_input pinhole_view_T translation_extrinsic one_point_ahead
    (input "obstacles_bbox" (ints [0; 10; 0; 10; 90; 1]%Z))
  = Return CONTINUE
      (set_obstacles_bbox one_point_ahead [[0; 10; 0; 10; 90; 1]%Z])
      [ {| output_id := "obstacles"; data := []; output_metadata := "" |} ].
Proof.
  destruct (empty_selection_contract pinhole_view_T translation_extrinsic
              one_point_ahead
              (input "obstacles_bbox" (ints [0; 10; 0; 10; 90; 1]%Z))
              [[0; 0; 10]]%Q [[9600 # 10; 5400 # 10; 10]]%Q
              [[0; 10; 0; 10; 90; 1]%Z])
    as (locations & _ & _ & Hnone & _).
  - reflexivity.
  - vm_compute. discriminate.
  - discriminate.
  - repeat split; try (vm_compute; reflexivity); repeat constructor.
  - reflexivity.
  - apply Hnone. vm_compute. reflexivity.
Defined.

(* ================================================================== *)
(** ** The operator over a whole run *)

Lemma on_lidar_pc_sends_nothing
    (camera_view_T : ndarray -> result ndarray)
    (self : Operator) (ev : dora_event) :
  sent_of (on_lidar_pc camera_view_T self ev) = [].
Proof.
  unfold on_lidar_pc.
  repeat match goal with
         | |- context [match ?r with Ok _ => _ | Err _ => _ end] =>
             destruct r; simpl; auto
         end.
Qed.

(** What one event can send from a reachable operator: nothing, or one
    [obstacles] buffer with the metadata of the event, and then the event
    is a bounding-box input. *)
Lemma sent_by_one_event
    (camera_view_T : ndarray -> result ndarray)
    (extrinsic : vector -> result matrix)
    (self : Operator) (ev : dora_event) :
  reachable camera_view_T extrinsic self ->
  sent_of (on_event camera_view_T extrinsic self ev) = []
  \/ exists floats,
      sent_of (on_event camera_view_T extrinsic self ev)
      = [ {| output_id := "obstacles"; data := floats;
             output_metadata := metadata ev |} ]
      /\ type ev = "INPUT" /\ id ev = "obstacles_bbox".
Proof.
  intros Hr. unfold on_event.
  destruct (String.eqb_spec (type ev) "INPUT") as [Hty|]; [|now left].
  unfold on_input.
  destruct (String.eqb "lidar_pc" (id ev)).
  { left. apply on_lidar_pc_sends_nothing. }
  destruct (String.eqb "position" (id ev)).
  { left. unfold on_position. now destruct (extrinsic _). }
  destruct (String.eqb_spec "lanes" (id ev)) as [Hl|].
  { left.
    destruct (lane_event_always_raises camera_view_T extrinsic self ev Hr
                (eq_sym Hl)) as (e & He).
    rewrite (on_input_lanes camera_view_T extrinsic self ev (eq_sym Hl)) in He.
    now rewrite He. }
  destruct (String.eqb_spec "obstacles_bbox" (id ev)) as [Hb|]; [|now left].
  unfold on_obstacles_bbox.
  destruct (_ || _); [now left|].
  destruct (np.reshape _ _) as [boxes|]; [|now left].
  simpl point_cloud. destruct (point_cloud self); [now left|].
  destruct (locate _ _ _) as [locations|]; [|now left].
  destruct (0 <? length locations).
  - destruct (to_world _ _); [|now left].
    right. eexists. split; [reflexivity|]. now split.
  - right. eexists. split; [reflexivity|]. now split.
Qed.

Lemma only_obstacles_from
    (camera_view_T : ndarray -> result ndarray)
    (extrinsic : vector -> result matrix)
    (events : list dora_event) :
  forall self : Operator,
    reachable camera_view_T extrinsic self ->
    Forall
      (fun o =>
         output_id o = "obstacles"
         /\ exists ev,
             In ev events /\ type ev = "INPUT" /\ id ev = "obstacles_bbox"
             /\ output_metadata o = metadata ev)
      (snd (run camera_view_T extrinsic self events))
    /\ length (snd (run camera_view_T extrinsic self events)) <= length events.
Proof.
  induction events as [|ev events IH]; intros self Hr.
  - simpl. split; [constructor|lia].
  - simpl.
    destruct (IH (state_of (on_event camera_view_T extrinsic self ev))
                 (reachable_step camera_view_T extrinsic self ev Hr))
      as (Hall & Hlen).
    destruct (run camera_view_T extrinsic
                (state_of (on_event camera_view_T extrinsic self ev)) events)
      as (final & sent).
    simpl in *.
    assert (Hrest : Forall
              (fun o =>
                 output_id o = "obstacles"
                 /\ exists ev',
                     (ev = ev' \/ In ev' events) /\ type ev' = "INPUT"
                     /\ id ev' = "obstacles_bbox"
                     /\ output_metadata o = metadata ev')
              sent).
    { revert Hall. apply Forall_impl.
      intros o (Ho & ev' & Hin & H). split; [exact Ho|].
      exists ev'. split; [now right|exact H]. }
    destruct (sent_by_one_event camera_view_T extrinsic self ev Hr)
      as [-> | (floats & -> & Hty & Hid)]; simpl.
    + split; [exact Hrest|lia].
    + split; [|lia].
      constructor; [|exact Hrest].
      split; [reflexivity|]. exists ev. repeat split; auto.
Qed.

(** X13.  Whatever events a fresh operator is sent, every output it sends
    is an [obstacles] buffer, sent for a bounding-box input of the run and
    carrying the metadata of that input; it never sends [global_lanes], and
    it never sends more outputs than it received events. *)
Theorem only_obstacles_are_ever_sent :
  forall (camera_view_T : ndarray -> result ndarray)
         (extrinsic : vector -> result matrix)
         (events : list dora_event),
    Forall
      (fun o =>
         output_id o = "obstacles"
         /\ exists ev,
             In ev events /\ type ev = "INPUT" /\ id ev = "obstacles_bbox"
             /\ output_metadata o = metadata ev)
      (snd (run camera_view_T extrinsic init events))
    /\ length (snd (run camera_view_T extrinsic init events))
       <= length events.
Proof.
  intros ct ex events.
  apply only_obstacles_from. apply reachable_init.
Qed.



(** The point-cloud handler on a well-formed buffer: either it returns and
    holds the forward, above-ground points of the camera-frame cloud, or a
    projection raised and the held cloud is the one it had. *)
Lemma on_lidar_pc_cloud
    (camera_view_T : ndarray -> result ndarray)
    (extrinsic : vector -> result matrix)
    (self : Operator) (ev : dora_event) :
  id ev = "lidar_pc" ->
  point_cloud (state_of (on_input camera_view_T extrinsic self ev))
  = point_cloud self
  \/ exists cloud,
      point_cloud (state_of (on_input camera_view_T extrinsic self ev))
      = NdArray cloud
      /\ Forall kept_point cloud.
Proof.
  intros Hid.
  destruct (np.reshape 3 (view_float32 (value ev))) as [raw|] eqn:Hre.
  2:{ left. rewrite (on_input_lidar_pc _ _ self ev Hid).
      unfold on_lidar_pc. now rewrite Hre. }
  destruct (reshape_Ok 3 _ raw ltac:(lia) Hre) as (Hraw & _ & _).
  pose proof (dot_Ok 3 raw VELODYNE_MATRIX Hraw eq_refl) as Hdot.
  set (camera_frame :=
         map (fun r => map (np.dotp r) (np.T VELODYNE_MATRIX)) raw) in *.
  assert (Hcam : Forall (fun p => length p = 3) camera_frame).
  { unfold camera_frame. rewrite Forall_map. apply Forall_forall.
    intros r _. now rewrite length_map. }
  pose proof (Forall_kept _ forward _ Hcam) as Hfwd.
  assert (Hkept : Forall kept_point
                    (filter above_ground (filter forward camera_frame))).
  { apply Forall_forall. intros p Hp.
    apply filter_In in Hp as (Hp & Hab).
    pose proof Hp as Hp'. apply filter_In in Hp' as (Hin & Hf).
    rewrite Forall_forall in Hcam.
    split; [now apply Hcam|]. split.
    - now apply Qltb_lt in Hf.
    - now apply Qltb_lt in Hab. }
  rewrite (on_input_lidar_pc _ _ self ev Hid). unfold on_lidar_pc.
  rewrite Hre, Hdot, (col_Ok 2 3 camera_frame Hcam) by lia.
  rewrite map_map.
  change (fun x : list Q => np.Qltb FORWARD_DEPTH (nth 2 x 0%Q)) with forward.
  rewrite take_where_map.
  rewrite (col_Ok 1 3 _ Hfwd) by lia.
  rewrite map_map.
  change (fun x : list Q => np.Qltb (nth 1 x 0%Q) GROUND_HEIGHT)
    with above_ground.
  rewrite take_where_map.
  unfold np.getitem, np.eq_False.
  destruct (camera_view_T (Arr2 _)); [destruct (camera_view_T (Empty3 _))|];
    simpl; auto.
  right. eexists. split; [reflexivity|exact Hkept].
Qed.

Lemma point_cloud_after_event
    (camera_view_T : ndarray -> result ndarray)
    (extrinsic : vector -> result matrix)
    (self : Operator) (ev : dora_event) :
  point_cloud (state_of (on_event camera_view_T extrinsic self ev))
  = point_cloud self
  \/ exists cloud,
      point_cloud (state_of (on_event camera_view_T extrinsic self ev))
      = NdArray cloud
      /\ Forall kept_point cloud.
Proof.
  unfold on_event. destruct (String.eqb (type ev) "INPUT"); [|now left].
  destruct (String.eqb_spec "lidar_pc" (id ev)) as [Hl|Hl].
  { now apply on_lidar_pc_cloud. }
  left. unfold on_input.
  apply String.eqb_neq in Hl. rewrite Hl.
  destruct (String.eqb "position" (id ev)).
  { unfold on_position. now destruct (extrinsic _). }
  destruct (String.eqb "lanes" (id ev)).
  { now rewrite on_lanes_state. }
  destruct (String.eqb "obstacles_bbox" (id ev)); [|reflexivity].
  now destruct (on_obstacles_bbox_state self ev) as [-> | (boxes & ->)].
Qed.

(** X14.  In every state the operator can reach, every point of the held
    cloud has three coordinates, a depth above 0.1 and a height
    coordinate below 1.0: no point behind the sensor or on the ground is
    ever offered to a bounding box. *)
Theorem held_cloud_is_forward_and_above_ground :
  forall (camera_view_T : ndarray -> result ndarray)
         (extrinsic : vector -> result matrix)
         (self : Operator) (cloud : matrix),
    reachable camera_view_T extrinsic self ->
    point_cloud self = NdArray cloud ->
    Forall kept_point cloud.
Proof.
  intros ct ex self cloud Hr. revert cloud.
  induction Hr as [|self ev _ IH]; intros cloud Hpc; [discriminate|].
  destruct (point_cloud_after_event ct ex self ev) as [E | (c & E & Hk)].
  - apply IH. now rewrite <- E.
  - rewrite E in Hpc. now injection Hpc as <-.
Qed.

Lemma held_cloud_is_forward_and_above_ground_witness :
  Forall kept_point [[0; 0; 10]]%Q.
Proof.
  apply (held_cloud_is_forward_and_above_ground pinhole_view_T
           translation_extrinsic one_point_ahead).
  - apply (reachable_step pinhole_view_T translation_extrinsic _
             (input "position" (floats [1; 2; 3; 0; 0; 0]%Q))).
    apply (reachable_step pinhole_view_T translation_extrinsic _
             (input "lidar_pc" (floats [10; 0; 0]%Q))).
    apply reachable_init.
  - vm_compute. reflexivity.
Defined.

(** X15.  A point-cloud event replaces the held cloud wholesale: whatever
    the operator held before, if the handler returns from one state it
    returns from any other, with the same held cloud, camera view, ground
    partition and ground camera view. *)
Theorem point_cloud_event_forgets_the_previous_cloud :
  forall (camera_view_T : ndarray -> result ndarray)
         (extrinsic : vector -> result matrix)
         (self1 self2 : Operator) (ev : dora_event)
         (status : DoraStatus) (after1 : Operator) (sent : list output),
    id ev = "lidar_pc" ->
    on_input camera_view_T extrinsic self1 ev = Return status after1 sent ->
    exists after2,
      on_input camera_view_T extrinsic self2 ev = Return status after2 sent
      /\ point_cloud after2 = point_cloud after1
      /\ camera_point_cloud after2 = camera_point_cloud after1
      /\ ground_point_cloud after2 = ground_point_cloud after1
      /\ camera_ground_point_cloud after2 = camera_ground_point_cloud after1.
Proof.
  intros ct ex self1 self2 ev status after1 sent Hid H.
  rewrite (on_input_lidar_pc ct ex self1 ev Hid) in H.
  rewrite (on_input_lidar_pc ct ex self2 ev Hid).
  unfold on_lidar_pc in *.
  repeat match type of H with
         | context [match ?r with Ok _ => _ | Err _ => _ end] =>
             destruct r; try discriminate
         end.
  injection H as <- <- <-.
  eexists. split; [reflexivity|]. repeat split.
Qed.

Lemma point_cloud_event_forgets_the_previous_cloud_witness :
  exists after2,
    on_input pinhole_view_T translation_extrinsic one_point_ahead
      (input "lidar_pc" (floats [7; 0; 0]%Q))
    = Return CONTINUE after2 []
    /\ point_cloud after2 = NdArray [[0; 0; 7]]%Q.
Proof.
  destruct (point_cloud_event_forgets_the_previous_cloud pinhole_view_T
              translation_extrinsic init one_point_ahead
              (input "lidar_pc" (floats [7; 0; 0]%Q))
              CONTINUE
              (state_of (on_input pinhole_view_T translation_extrinsic init
                           (input "lidar_pc" (floats [7; 0; 0]%Q))))
              [])
    as (after2 & Hrun & Hpc & _).
  - reflexivity.
  - vm_compute. reflexivity.
  - exists after2. split; [exact Hrun|].
    rewrite Hpc. vm_compute. reflexivity.
Defined.

(* ================================================================== *)
(** ** The operator: the held cloud in LiDAR coordinates *)

Lemma Qltb_iff_eq (x y x' y' : Q) :
  ((x < y)%Q <-> (x' < y')%Q) -> np.Qltb x y = np.Qltb x' y'.
Proof.
  intros H.
  destruct (np.Qltb x y) eqn:E, (np.Qltb x' y') eqn:E'; try reflexivity.
  - apply Qltb_lt in E. apply Qltb_ge in E'. apply H in E. lra.
  - apply Qltb_ge in E. apply Qltb_lt in E'. apply H in E'. lra.
Qed.

Lemma filter_map_swap {A B : Type} (f : B -> bool) (g : A -> B) (l : list A) :
  filter f (map g l) = map g (filter (fun x => f (g x)) l).
Proof.
  induction l as [|x l IH]; simpl; [reflexivity|].
  destruct (f (g x)); simpl; now rewrite IH.
Qed.

Lemma filter_twice {A : Type} (f g : A -> bool) (l : list A) :
  filter f (filter g l) = filter (fun x => g x && f x) l.
Proof.
  induction l as [|x l IH]; simpl; [reflexivity|].
  destruct (g x); simpl; [destruct (f x)|]; now rewrite IH.
Qed.

Lemma length_3 {A : Type} (l : list A) :
  length l = 3 -> exists a b c, l = [a; b; c].
Proof.
  destruct l as [|a [|b [|c [|d l]]]]; simpl; intros H; try discriminate.
  now exists a, b, c.
Qed.

(** X16.  In the axes of the LiDAR (x forward, y right, z up), a
    point-cloud event that is handled to the end holds exactly the points
    with x > 0.1 and z > -1, in the order of the buffer, each read as
    (y, -z, x) in the camera axes. *)
Theorem held_cloud_in_lidar_axes :
  forall (camera_view_T : ndarray -> result ndarray)
         (extrinsic : vector -> result matrix)
         (self : Operator) (ev : dora_event) (raw : matrix)
         (status : DoraStatus) (after : Operator) (sent : list output),
    id ev = "lidar_pc" ->
    np.reshape 3 (view_float32 (value ev)) = Ok raw ->
    on_input camera_view_T extrinsic self ev = Return status after sent ->
    exists held_cloud,
      point_cloud after = NdArray held_cloud
      /\ Forall2 (Forall2 Qeq) held_cloud
                 (map camera_axes (filter in_view raw)).
Proof.
  intros ct ex self ev raw status after sent Hid Hre Hrun.
  destruct (on_lidar_pc_held ct ex self ev raw Hid Hre)
    as (camera_frame & Hdot & _ & Hheld).
  destruct (reshape_Ok 3 _ raw ltac:(lia) Hre) as (Hraw & _ & _).
  rewrite (dot_Ok 3 raw VELODYNE_MATRIX Hraw eq_refl) in Hdot.
  injection Hdot as <-.
  eexists. split; [exact (Hheld status after sent Hrun)|].
  rewrite filter_map_swap, filter_map_swap, filter_twice.
  rewrite (filter_ext_in _ in_view raw).
  2:{ intros r Hr. cbv beta.
      rewrite Forall_forall in Hraw.
      destruct (length_3 r (Hraw r Hr)) as (x & y & z & ->).
      unfold in_view, forward, above_ground, depth_of, height_of.
      cbn [nth map np.T np.ncols VELODYNE_MATRIX seq length].
      f_equal; apply Qltb_iff_eq; unfold GROUND_HEIGHT; cbn; split; lra. }
  assert (Hin : Forall (fun r => length r = 3) (filter in_view raw))
    by now apply Forall_kept.
  induction Hin as [|r l Hr _ IH]; simpl; constructor; [|exact IH].
  destruct (length_3 r Hr) as (x & y & z & ->).
  unfold camera_axes.
  repeat (apply Forall2_cons; [cbn; ring|]). constructor.
Qed.

Lemma held_cloud_in_lidar_axes_witness :
  exists held_cloud,
    point_cloud
      (state_of (on_input pinhole_view_T translation_extrinsic init
                   (input "lidar_pc"
                      (floats [10; 3; 0; 5; 0; -(2); -(4); 0; 0]%Q))))
    = NdArray held_cloud
    /\ Forall2 (Forall2 Qeq) held_cloud
               (map camera_axes
                  (filter in_view [[10; 3; 0]; [5; 0; -(2)]; [-(4); 0; 0]]%Q)).
Proof.
  apply (held_cloud_in_lidar_axes pinhole_view_T translation_extrinsic init
           (input "lidar_pc" (floats [10; 3; 0; 5; 0; -(2); -(4); 0; 0]%Q))
           [[10; 3; 0]; [5; 0; -(2)]; [-(4); 0; 0]]%Q
           CONTINUE _ []).
  - reflexivity.
  - reflexivity.
  - vm_compute. reflexivity.
Defined.

(* ================================================================== *)
(** ** [obstacle_location_node]: the closest sampled location *)

Section ClosestLocation.

Variable obstacle : Type.
Variable location : Type.
Variable get_center_point : obstacle -> Z * Z.
Variable is_within : obstacle -> Z * Z -> bool.
Variable get_pixel_locations : list (Z * Z) -> list location.
Variable distance : location -> Q.

Lemma closest_from_spec (rest : list location) :
  forall c : location,
    exists l,
      obstacle_location_node.closest_from distance
        (Some (distance c)) (Some c) rest = Some l
      /\ ((l = c /\ Forall (fun l' => (distance c <= distance l')%Q) rest)
          \/ exists before after,
              rest = before ++ l :: after
              /\ (distance l < distance c)%Q
              /\ Forall (fun l' => (distance l < distance l')%Q) before
              /\ Forall (fun l' => (distance l <= distance l')%Q) after).
Proof.
  induction rest as [|x rest IH]; intros c; simpl.
  - exists c. split; [reflexivity|]. left. split; [reflexivity|constructor].
  - destruct (np.Qltb (distance x) (distance c)) eqn:E.
    + apply Qltb_lt in E.
      destruct (IH x)
        as (l & Hl & [(-> & Hall) | (b & a & -> & Hlt & Hb & Ha)]).
      * exists x. split; [exact Hl|]. right.
        exists [], rest. repeat split; [exact E|constructor|exact Hall].
      * exists l. split; [exact Hl|]. right.
        exists (x :: b), a. repeat split; [lra| |exact Ha].
        constructor; [exact Hlt|exact Hb].
    + apply Qltb_ge in E.
      destruct (IH c)
        as (l & Hl & [(-> & Hall) | (b & a & -> & Hlt & Hb & Ha)]).
      * exists c. split; [exact Hl|]. left.
        split; [reflexivity|]. constructor; [exact E|exact Hall].
      * exists l. split; [exact Hl|]. right.
        exists (x :: b), a. repeat split; [exact Hlt| |exact Ha].
        constructor; [lra|exact Hb].
Qed.

(** X17.  [get_obstacle_locations] keeps the obstacles in their order and
    gives each one the location, among those the depth frame returns for
    its own sample points, that is nearest to the ego vehicle, the first of
    them when several are equally near; an obstacle without any such
    location gets none. *)
Theorem each_obstacle_gets_its_first_nearest_location :
  forall obstacles : list obstacle,
    let located :=
      obstacle_location_node.get_obstacle_locations
        get_center_point is_within get_pixel_locations distance obstacles in
    map fst located = obstacles
    /\ Forall
         (fun ol =>
            obstacle_location_node.first_nearest distance
              (get_pixel_locations
                 (obstacle_location_node.sample_points
                    get_center_point is_within (fst ol)))
              (snd ol))
         located.
Proof.
  intros obstacles located. subst located.
  unfold obstacle_location_node.get_obstacle_locations. split.
  - rewrite map_map. simpl. apply map_id.
  - rewrite Forall_map. apply Forall_forall. intros o _. simpl.
    destruct (get_pixel_locations _) as [|x rest]; [reflexivity|].
    simpl.
    destruct (closest_from_spec rest x)
      as (l & -> & [(-> & Hall) | (b & a & -> & Hlt & Hb & Ha)]); simpl.
    + exists [], rest. repeat split; [constructor|exact Hall].
    + exists (x :: b), a. repeat split; [|exact Ha].
      constructor; [exact Hlt|exact Hb].
Qed.

Lemma deltas_spec (d : Z) :
  In d obstacle_location_node.deltas ->
  exists k : Z, (0 <= k < 12)%Z /\ d = (-30 + 5 * k)%Z.
Proof.
  unfold obstacle_location_node.deltas. intros H.
  apply in_map_iff in H as (k & <- & Hk). apply in_seq in Hk.
  exists (Z.of_nat k). split; [lia|reflexivity].
Qed.

(** X18.  Every sample point of an obstacle is within its bounding box and
    lies on a grid around the centre of the box: its offsets from the
    centre are multiples of 5 from -30 to 25 (30 is not reached).  There
    are at most 144 sample points, and the centre itself is one of them
    whenever it is within the box. *)
Theorem sample_points_are_within_the_box_on_a_grid :
  forall o : obstacle,
    let center := get_center_point o in
    let samples :=
      obstacle_location_node.sample_points get_center_point is_within o in
    Forall
      (fun p =>
         is_within o p = true
         /\ exists kx ky : Z,
             (0 <= kx < 12)%Z /\ (0 <= ky < 12)%Z
             /\ fst p = (fst center + (-30 + 5 * kx))%Z
             /\ snd p = (snd center + (-30 + 5 * ky))%Z)
      samples
    /\ length samples <= 144
    /\ (is_within o center = true -> In center samples).
Proof.
  intros o center samples. subst center samples.
  unfold obstacle_location_node.sample_points. cbv zeta.
  split; [|split].
  - apply Forall_forall. intros p Hp.
    apply filter_In in Hp as (Hp & Hw). split; [exact Hw|].
    apply in_flat_map in Hp as (dx & Hdx & Hp).
    apply in_map_iff in Hp as (dy & <- & Hdy).
    destruct (deltas_spec dx Hdx) as (kx & Hkx & ->).
    destruct (deltas_spec dy Hdy) as (ky & Hky & ->).
    exists kx, ky. repeat split; lia.
  - eapply Nat.le_trans; [apply filter_length_le|].
    unfold obstacle_location_node.deltas. cbn [seq map flat_map].
    rewrite !length_app. cbn [length]. lia.
  - intros Hw. apply filter_In. split; [|exact Hw].
    apply in_flat_map. exists 0%Z. split.
    + unfold obstacle_location_node.deltas. apply in_map_iff.
      exists 6. split; [reflexivity|]. apply in_seq. lia.
    + apply in_map_iff. exists 0%Z. split.
      * destruct (get_center_point o) as (cx, cy). simpl.
        now rewrite !Z.add_0_r.
      * unfold obstacle_location_node.deltas. apply in_map_iff.
        exists 6. split; [reflexivity|]. apply in_seq. lia.
Qed.

End ClosestLocation.

Lemma sample_points_are_within_the_box_on_a_grid_witness :
  In (100, 50)%Z
     (obstacle_location_node.sample_points
        (fun _ : unit => (100, 50)%Z)
        (fun _ p => (90 <=? fst p)%Z && (fst p <=? 110)%Z
                    && (45 <=? snd p)%Z && (snd p <=? 55)%Z)
        tt).
Proof.
  apply (proj2 (proj2 (sample_points_are_within_the_box_on_a_grid
                         unit (fun _ : unit => (100, 50)%Z)
                         (fun _ p => (90 <=? fst p)%Z && (fst p <=? 110)%Z
                                     && (45 <=? snd p)%Z && (snd p <=? 55)%Z)
                         tt))).
  reflexivity.
Defined.

(* ================================================================== *)
(** ** The operator: events that do not disturb each other *)

Lemma on_obstacles_bbox_after_store
    (self : Operator) (stored : list (list Z)) (ev : dora_event) :
  sent_of (on_obstacles_bbox (set_obstacles_bbox self stored) ev)
  = sent_of (on_obstacles_bbox self ev).
Proof.
  unfold on_obstacles_bbox. simpl position. simpl point_cloud.
  destruct (_ || _); [reflexivity|].
  destruct (np.reshape _ _) as [boxes|]; [|reflexivity].
  simpl point_cloud. simpl camera_point_cloud. simpl extrinsic_matrix.
  destruct (point_cloud self); [reflexivity|].
  destruct (locate _ _ _) as [locations|]; [|reflexivity].
  destruct (0 <? length locations); [|reflexivity].
  now destruct (to_world _ _).
Qed.

(** X19.  Localization requests do not disturb each other: what a
    bounding-box event sends is the same whether or not a lane event or
    another bounding-box event was handled just before it, and handling the
    same bounding-box event a second time has exactly the outcome of the
    first time. *)
Theorem bbox_events_do_not_disturb_each_other :
  forall (camera_view_T : ndarray -> result ndarray)
         (extrinsic : vector -> result matrix)
         (self : Operator) (before ev : dora_event),
    id ev = "obstacles_bbox" ->
    (id before = "lanes" \/ id before = "obstacles_bbox" ->
     sent_of (on_input camera_view_T extrinsic
                (state_of (on_input camera_view_T extrinsic self before)) ev)
     = sent_of (on_input camera_view_T extrinsic self ev))
    /\ on_input camera_view_T extrinsic
         (state_of (on_input camera_view_T extrinsic self ev)) ev
       = on_input camera_view_T extrinsic self ev.
Proof.
  intros ct ex self before ev Hid. split.
  - intros [Hb | Hb].
    + now rewrite (on_input_lanes ct ex self before Hb), on_lanes_state.
    + rewrite (on_input_obstacles_bbox ct ex self before Hb).
      rewrite !(on_input_obstacles_bbox ct ex _ ev Hid).
      destruct (on_obstacles_bbox_state self before) as [-> | (boxes & ->)];
        [reflexivity|].
      apply on_obstacles_bbox_after_store.
  - rewrite !(on_input_obstacles_bbox ct ex _ ev Hid).
    unfold on_obstacles_bbox.
    destruct ((len_rows (position self) =? 0)
              || (len_rows (point_cloud self) =? 0)) eqn:Eg.
    { simpl. now rewrite Eg. }
    destruct (np.reshape 6 (view_int32 (value ev))) as [boxes|] eqn:Er.
    2:{ simpl. now rewrite Eg. }
    simpl point_cloud. simpl camera_point_cloud. simpl extrinsic_matrix.
    destruct (point_cloud self) as [|cloud] eqn:Epc.
    { simpl in Eg. rewrite orb_true_r in Eg. discriminate. }
    destruct (locate cloud (camera_point_cloud self) boxes)
      as [locations|] eqn:El.
    2:{ simpl in *. rewrite Epc. simpl. now rewrite Eg, El. }
    destruct (0 <? length locations) eqn:E0.
    + destruct (to_world (extrinsic_matrix self) locations) eqn:Ew;
        simpl in *; rewrite Epc; simpl; now rewrite Eg, El, E0, Ew.
    + simpl in *. rewrite Epc. simpl. now rewrite Eg, El, E0.
Qed.

Lemma bbox_events_do_not_disturb_each_other_witness :
  sent_of (on_input pinhole_view_T translation_extrinsic
             (state_of (on_input pinhole_view_T translation_extrinsic
                          one_point_ahead
                          (input "obstacles_bbox"
                             (ints [0; 10; 0; 10; 90; 1]%Z))))
             (input "obstacles_bbox" (ints [900; 1000; 500; 600; 80; 2]%Z)))
  = sent_of (on_input pinhole_view_T translation_extrinsic one_point_ahead
               (input "obstacles_bbox"
                  (ints [900; 1000; 500; 600; 80; 2]%Z))).
Proof.
  apply (proj1 (bbox_events_do_not_disturb_each_other pinhole_view_T
                  translation_extrinsic one_point_ahead
                  (input "obstacles_bbox" (ints [0; 10; 0; 10; 90; 1]%Z))
                  (input "obstacles_bbox"
                     (ints [900; 1000; 500; 600; 80; 2]%Z))
                  eq_refl)).
  right. reflexivity.
Defined.

(** X20.  The two update streams commute: handling a pose event and then a
    point-cloud event leaves the operator in the same state as handling
    them in the other order, whether the handlers return or raise. *)
Theorem pose_and_point_cloud_events_commute :
  forall (camera_view_T : ndarray -> result ndarray)
         (extrinsic : vector -> result matrix)
         (self : Operator) (pose cloud : dora_event),
    id pose = "position" ->
    id cloud = "lidar_pc" ->
    state_of (on_input camera_view_T extrinsic
                (state_of (on_input camera_view_T extrinsic self pose)) cloud)
    = state_of (on_input camera_view_T extrinsic
                  (state_of (on_input camera_view_T extrinsic self cloud))
                  pose).
Proof.
  intros ct ex self pose cloud Hp Hc.
  rewrite !(on_input_position ct ex _ pose Hp).
  rewrite !(on_input_lidar_pc ct ex _ cloud Hc).
  unfold on_position, on_lidar_pc.
  destruct (ex _);
    repeat match goal with
           | |- context [match ?r with Ok _ => _ | Err _ => _ end] =>
               destruct r; simpl; try reflexivity
           end.
Qed.

Lemma pose_and_point_cloud_events_commute_witness :
  state_of (on_input pinhole_view_T translation_extrinsic
              (state_of (on_input pinhole_view_T translation_extrinsic init
                           (input "position" (floats [1; 2; 3; 0; 0; 0]%Q))))
              (input "lidar_pc" (floats [10; 0; 0]%Q)))
  = one_point_ahead.
Proof.
  rewrite (pose_and_point_cloud_events_commute pinhole_view_T
             translation_extrinsic init
             (input "position" (floats [1; 2; 3; 0; 0; 0]%Q))
             (input "lidar_pc" (floats [10; 0; 0]%Q))
             eq_refl eq_refl).
  reflexivity.
Defined.
